(** * Amarillo's Outfit Manager: the outfit-switching core, embedded in Rocq

    The development follows [amarillo_outfit_manager.py].  The property
    groups of the addon become records, the host scene graph (collection
    containment tree, view-layer tree, mesh objects with their shape-key
    blocks) becomes an explicit store that every operator threads through,
    and each operator's [execute] becomes a function from a context to an
    outcome.  References to host objects are kept as references: an outfit
    is designated by its position in [amarillo_outfits], a view-layer node
    by its path from the root of the view-layer tree, a mesh object by its
    identifier in the object store.

    Shape-key weights are exact rationals: the operators copy weights and
    write [0.0], they never compute with them.  Scene indices are
    unbounded integers, as [IntProperty()] declares no range and the
    operators only ever store [max(0, _)] or an index they were given. *)

From Stdlib Require Import ZArith QArith Lia.
From stdpp Require Import base option list strings pretty gmap.

Local Open Scope Z_scope.

(** ** Host data *)

Definition CollId := positive.
Definition ObjId := positive.

#[local] Unset Elimination Schemes.

(** [bpy.types.Collection]: identity, display name, and the child
    collections reached through [collection.children].  The addon only
    reads this tree. *)
Inductive Collection : Type :=
  MkCollection (coll_id : CollId) (coll_name : string) (coll_children : list Collection).

Definition coll_id (c : Collection) : CollId :=
  match c with MkCollection i _ _ => i end.
Definition coll_name (c : Collection) : string :=
  match c with MkCollection _ n _ => n end.
Definition coll_children (c : Collection) : list Collection :=
  match c with MkCollection _ _ ch => ch end.

(** [bpy.types.LayerCollection]: the view-layer mirror of the collection
    hierarchy.  [lc_collection] is the pointer [layer_coll.collection],
    kept as the identity of the collection it points to, since the addon
    only ever compares it with [==]. *)
Inductive LayerCollection : Type :=
  MkLayerCollection (lc_collection : CollId) (exclude : bool)
                    (lc_children : list LayerCollection).

Definition lc_collection (lc : LayerCollection) : CollId :=
  match lc with MkLayerCollection c _ _ => c end.
Definition exclude (lc : LayerCollection) : bool :=
  match lc with MkLayerCollection _ e _ => e end.
Definition lc_children (lc : LayerCollection) : list LayerCollection :=
  match lc with MkLayerCollection _ _ ch => ch end.

#[local] Set Elimination Schemes.

(** A reference to a node of the view-layer tree: the child positions to
    follow from the root. *)
Definition NodeRef := list nat.

Fixpoint node_at (lc : LayerCollection) (p : NodeRef) : option LayerCollection :=
  match p with
  | [] => Some lc
  | i :: q => match lc_children lc !! i with
              | Some child => node_at child q
              | None => None
              end
  end.

(** The assignment [node.exclude = v] through a node reference.  It is
    recorded on the node it is made on; what the host does in response to
    the assignment is not part of the addon and is not modelled. *)
Fixpoint set_exclude (lc : LayerCollection) (p : NodeRef) (v : bool) : LayerCollection :=
  match lc with
  | MkLayerCollection c e ch =>
      match p with
      | [] => MkLayerCollection c v ch
      | i :: q =>
          match ch !! i with
          | Some child => MkLayerCollection c e (<[i := set_exclude child q v]> ch)
          | None => lc
          end
      end
  end.

(** Shape-key blocks of a mesh: [key_blocks] is an ordered table of named
    weights. *)
Module KeyBlock.
Record t := mk { name : string; value : Q }.
End KeyBlock.

(** A mesh object: [data.shape_keys] (absent for a mesh without shape
    keys, otherwise its [key_blocks]) and the position of the active
    shape key. *)
Module Object.
Record t := mk {
  shape_keys : option (list KeyBlock.t);
  active_shape_key_index : nat
}.
End Object.

(** [obj.active_shape_key] *)
Definition active_shape_key (ob : Object.t) : option KeyBlock.t :=
  match Object.shape_keys ob with
  | Some blocks => blocks !! Object.active_shape_key_index ob
  | None => None
  end.

(** [key_blocks.get(name)]: a reference (position) to the first block of
    that name. *)
Fixpoint key_blocks_get (blocks : list KeyBlock.t) (n : string) : option nat :=
  match blocks with
  | [] => None
  | b :: rest =>
      if String.eqb (KeyBlock.name b) n then Some 0%nat
      else match key_blocks_get rest n with
           | Some i => Some (S i)
           | None => None
           end
  end.

(** ** Property groups of the addon *)

(** [FloatProperty(min=0.0, max=1.0)]: assignment clamps to the hard range. *)
Definition clamp01 (w : Q) : Q :=
  if negb (Qle_bool 0 w) then 0%Q
  else if negb (Qle_bool w 1) then 1%Q
  else w.

Module ShapeKeyEntry.
Record t := mk {
  name : string;
  value : Q;
  model : option ObjId
}.
End ShapeKeyEntry.

Module NestedCollectionState.
Record t := mk {
  collection : option Collection;
  was_excluded : bool
}.
End NestedCollectionState.

Module OutfitEntry.
Record t := mk {
  name : string;
  collection : option Collection;
  shape_keys : list ShapeKeyEntry.t;
  active_shape_key_index : Z;
  nested_states : list NestedCollectionState.t
}.

Definition set_shape_keys (o : t) (sks : list ShapeKeyEntry.t) : t :=
  mk (name o) (collection o) sks (active_shape_key_index o) (nested_states o).
Definition set_active_shape_key_index (o : t) (i : Z) : t :=
  mk (name o) (collection o) (shape_keys o) i (nested_states o).
Definition set_nested_states (o : t) (ns : list NestedCollectionState.t) : t :=
  mk (name o) (collection o) (shape_keys o) (active_shape_key_index o) ns.

(** The [update] callback of the [collection] property: binding a
    collection copies its name into the outfit's display name. *)
Definition set_collection (o : t) (c : option Collection) : t :=
  mk (match c with Some c' => coll_name c' | None => name o end)
     c (shape_keys o) (active_shape_key_index o) (nested_states o).
End OutfitEntry.

Module ManagedModelEntry.
Record t := mk {
  name : string;
  object : option ObjId
}.
End ManagedModelEntry.

(** ** The context an operator runs in

    The four scene properties registered by the addon, the root of
    [context.view_layer.layer_collection], and the host's mesh objects. *)
Record Context := MkContext {
  amarillo_outfits : list OutfitEntry.t;
  amarillo_active_outfit_index : Z;
  amarillo_managed_models : list ManagedModelEntry.t;
  amarillo_active_model_index : Z;
  layer_collection : LayerCollection;
  objects : gmap ObjId Object.t
}.

Definition with_outfits (ctx : Context) (os : list OutfitEntry.t) : Context :=
  MkContext os (amarillo_active_outfit_index ctx) (amarillo_managed_models ctx)
            (amarillo_active_model_index ctx) (layer_collection ctx) (objects ctx).
Definition with_active_outfit_index (ctx : Context) (i : Z) : Context :=
  MkContext (amarillo_outfits ctx) i (amarillo_managed_models ctx)
            (amarillo_active_model_index ctx) (layer_collection ctx) (objects ctx).
Definition with_managed_models (ctx : Context) (ms : list ManagedModelEntry.t) : Context :=
  MkContext (amarillo_outfits ctx) (amarillo_active_outfit_index ctx) ms
            (amarillo_active_model_index ctx) (layer_collection ctx) (objects ctx).
Definition with_active_model_index (ctx : Context) (i : Z) : Context :=
  MkContext (amarillo_outfits ctx) (amarillo_active_outfit_index ctx)
            (amarillo_managed_models ctx) i (layer_collection ctx) (objects ctx).
Definition with_layer_collection (ctx : Context) (lc : LayerCollection) : Context :=
  MkContext (amarillo_outfits ctx) (amarillo_active_outfit_index ctx)
            (amarillo_managed_models ctx) (amarillo_active_model_index ctx) lc (objects ctx).
Definition with_objects (ctx : Context) (obs : gmap ObjId Object.t) : Context :=
  MkContext (amarillo_outfits ctx) (amarillo_active_outfit_index ctx)
            (amarillo_managed_models ctx) (amarillo_active_model_index ctx)
            (layer_collection ctx) obs.

(** What an operator hands back: the status set it returns, or the
    exception that escapes [execute]; in each case with the context as the
    operator left it.  A cancellation carries the warning it reported, if
    any. *)
Inductive Outcome : Type :=
| FINISHED (ctx : Context)
| CANCELLED (warning : option string) (ctx : Context)
| IndexError (ctx : Context).

Definition final_context (r : Outcome) : Context :=
  match r with
  | FINISHED ctx | CANCELLED _ ctx | IndexError ctx => ctx
  end.

(** ** Collection properties as the host implements them *)

Definition len {A} (l : list A) : Z := Z.of_nat (length l).

(** [coll[i]] on a [bpy_prop_collection]: a negative index counts from the
    end, an index outside the sequence raises [IndexError] (here [None]).
    The result is the position of the element, which is how the embedding
    refers to the (mutable) element afterwards. *)
Definition getitem {A} (l : list A) (i : Z) : option nat :=
  let k := if i <? 0 then i + len l else i in
  if (0 <=? k) && (k <? len l) then Some (Z.to_nat k) else None.

(** [coll.remove(i)]: removes the element at position [i]; does nothing
    when [i] is not a position of the sequence. *)
Definition remove {A} (l : list A) (i : Z) : list A :=
  if (0 <=? i) && (i <? len l) then delete (Z.to_nat i) l else l.

(** In-place change of the outfit at a position. *)
Definition update_outfit (ctx : Context) (pos : nat)
    (f : OutfitEntry.t -> OutfitEntry.t) : Context :=
  with_outfits ctx (alter f pos (amarillo_outfits ctx)).

(** ** Access to live shape-key weights

    The chain [entry.model and entry.model.data.shape_keys], then
    [key_blocks.get(entry.name)], resolves an override to a reference to a
    live key block: the object and the position of the block.  An unset
    model pointer, an object the host no longer resolves, a mesh without
    shape keys and an unknown key name all give [None]. *)
Definition resolve_key_block (obs : gmap ObjId Object.t)
    (model : option ObjId) (n : string) : option (ObjId * nat) :=
  match model with
  | Some m =>
      match obs !! m with
      | Some ob =>
          match Object.shape_keys ob with
          | Some blocks =>
              match key_blocks_get blocks n with
              | Some i => Some (m, i)
              | None => None
              end
          | None => None
          end
      | None => None
      end
  | None => None
  end.

Definition set_block_value (b : KeyBlock.t) (v : Q) : KeyBlock.t :=
  KeyBlock.mk (KeyBlock.name b) v.

(** The assignment [key_block.value = v] through a key-block reference. *)
Definition set_value (obs : gmap ObjId Object.t) (r : ObjId * nat) (v : Q)
    : gmap ObjId Object.t :=
  alter (fun ob =>
           Object.mk (alter (fun b => set_block_value b v) (snd r) <$> Object.shape_keys ob)
                     (Object.active_shape_key_index ob))
        (fst r) obs.

(** The live weight behind a key-block reference. *)
Definition value_at (obs : gmap ObjId Object.t) (r : ObjId * nat) : option Q :=
  match obs !! fst r with
  | Some ob =>
      match Object.shape_keys ob with
      | Some blocks => KeyBlock.value <$> blocks !! snd r
      | None => None
      end
  | None => None
  end.

(** ** Operators *)

Module AMARILLO_OT_remove_outfit.

(** "Remove the selected outfit entry". *)
Definition execute (context : Context) : Outcome :=
  let outfits := amarillo_outfits context in
  match getitem outfits (amarillo_active_outfit_index context) with
  | None => IndexError context
  | Some outfit =>
      (* outfit.shape_keys.clear() *)
      let context := update_outfit context outfit
                       (fun o => OutfitEntry.set_shape_keys o []) in
      let context := with_active_outfit_index context
                       (Z.max 0 (amarillo_active_outfit_index context - 1)) in
      FINISHED (with_outfits context
                  (remove (amarillo_outfits context)
                          (amarillo_active_outfit_index context)))
  end.

End AMARILLO_OT_remove_outfit.

Module AMARILLO_OT_remove_managed_model.

(** [[i for i, sk in enumerate(shape_keys) if sk.model == object]],
    counting from [i]. *)
Fixpoint to_remove_from (i : nat) (shape_keys : list ShapeKeyEntry.t)
    (object : option ObjId) : list nat :=
  match shape_keys with
  | [] => []
  | sk :: rest =>
      if bool_decide (ShapeKeyEntry.model sk = object)
      then i :: to_remove_from (S i) rest object
      else to_remove_from (S i) rest object
  end.

Definition to_remove (outfit : OutfitEntry.t) (object : option ObjId) : list nat :=
  to_remove_from 0 (OutfitEntry.shape_keys outfit) object.

(** One turn of the inner loop: [remove(i)], then the guarded clamp of
    the outfit's active override index. *)
Definition remove_step (outfit : OutfitEntry.t) (i : nat) : OutfitEntry.t :=
  let outfit := OutfitEntry.set_shape_keys outfit
                  (remove (OutfitEntry.shape_keys outfit) (Z.of_nat i)) in
  if len (OutfitEntry.shape_keys outfit) <=? OutfitEntry.active_shape_key_index outfit
  then OutfitEntry.set_active_shape_key_index outfit
         (Z.max 0 (len (OutfitEntry.shape_keys outfit) - 1))
  else outfit.

(** The body of [for outfit in context.scene.amarillo_outfits]: the
    positions to remove are collected first and then removed from the
    highest to the lowest. *)
Definition cascade (object : option ObjId) (outfit : OutfitEntry.t) : OutfitEntry.t :=
  foldl remove_step outfit (reverse (to_remove outfit object)).

(** "Remove the selected managed model". *)
Definition execute (context : Context) : Outcome :=
  let models := amarillo_managed_models context in
  let active_index := amarillo_active_model_index context in
  if (0 <=? active_index) && (active_index <? len models) then
    match models !! Z.to_nat active_index with
    | None => IndexError context
    | Some model =>
        let context := with_outfits context
                         (cascade (ManagedModelEntry.object model)
                            <$> amarillo_outfits context) in
        let context := with_managed_models context (remove models active_index) in
        FINISHED (with_active_model_index context (Z.max 0 (active_index - 1)))
    end
  else CANCELLED None context.

End AMARILLO_OT_remove_managed_model.

Module AMARILLO_OT_add_shape_key.

Definition no_basis : string := "Please select a non-basis shape key".
Definition no_model : string := "Please select a model with shape keys".

(** "Add a new shape key entry": an override for the active shape key of
    the selected managed model, appended to the selected outfit. *)
Definition execute (context : Context) : Outcome :=
  match getitem (amarillo_outfits context) (amarillo_active_outfit_index context) with
  | None => IndexError context
  | Some outfit =>
      let fall_through := CANCELLED (Some no_model) context in
      if 0 <=? amarillo_active_model_index context then
        match getitem (amarillo_managed_models context)
                      (amarillo_active_model_index context) with
        | None => IndexError context
        | Some m =>
            match amarillo_managed_models context !! m ≫= ManagedModelEntry.object with
            | Some object =>
                match objects context !! object with
                | Some ob =>
                    match Object.shape_keys ob with
                    | Some _ =>
                        match active_shape_key ob with
                        | Some active_key =>
                            if negb (String.eqb (KeyBlock.name active_key) "Basis") then
                              let new_shape_key :=
                                ShapeKeyEntry.mk (KeyBlock.name active_key)
                                                 (clamp01 (KeyBlock.value active_key))
                                                 (Some object) in
                              FINISHED (update_outfit context outfit (fun o =>
                                OutfitEntry.set_shape_keys o
                                  (OutfitEntry.shape_keys o ++ [new_shape_key])))
                            else CANCELLED (Some no_basis) context
                        | None => CANCELLED (Some no_basis) context
                        end
                    | None => fall_through
                    end
                | None => fall_through
                end
            | None => fall_through
            end
        end
      else fall_through
  end.

End AMARILLO_OT_add_shape_key.

(** The two activation operators.  Each class of the source carries its
    own copy of the helper methods; each module below embeds the copy of
    its class.  An outfit argument is the position of the outfit in
    [amarillo_outfits]: the helpers mutate the outfit they are given, and
    [execute] reads the target again after they ran. *)

Module AMARILLO_OT_quick_activate_outfit.

(** Writes [0.0] into the live key block of every override that resolves.
    (A position always designates an outfit where the operators call the
    helpers; the [None] branches are there for totality.) *)
Definition reset_outfit_shape_keys (context : Context) (outfit : nat) : Context :=
  match amarillo_outfits context !! outfit with
  | None => context
  | Some o =>
      with_objects context
        (foldl (fun obs shape_key_entry =>
                  match resolve_key_block obs (ShapeKeyEntry.model shape_key_entry)
                                          (ShapeKeyEntry.name shape_key_entry) with
                  | Some key_block => set_value obs key_block 0%Q
                  | None => obs
                  end)
               (objects context) (OutfitEntry.shape_keys o))
  end.

(** Depth-first search, in pre-order, for the first view-layer node that
    points to the collection; the result is a reference to that node. *)
Fixpoint find_layer_collection (layer_collection : LayerCollection)
    (collection : CollId) : option NodeRef :=
  match layer_collection with
  | MkLayerCollection c _ children =>
      if Pos.eqb c collection then Some []
      else
        (fix loop (i : nat) (children : list LayerCollection) : option NodeRef :=
           match children with
           | [] => None
           | child :: rest =>
               match find_layer_collection child collection with
               | Some found => Some (i :: found)
               | None => loop (S i) rest
               end
           end) 0%nat children
  end.

(** Every descendant of the collection, in pre-order, the collection
    itself excluded. *)
Fixpoint get_all_nested_collections (collection : Collection) : list Collection :=
  match collection with
  | MkCollection _ _ children =>
      (fix loop (result : list Collection) (children : list Collection)
         : list Collection :=
         match children with
         | [] => result
         | child :: rest =>
             loop (result ++ [child] ++ get_all_nested_collections child) rest
         end) [] children
  end.

(** Replaces the snapshot of the outfit by one entry per descendant of its
    bound collection that resolves in the view layer, recording the flag
    of the node found. *)
Definition store_nested_states (context : Context) (outfit : nat) : Context :=
  match amarillo_outfits context !! outfit with
  | None => context
  | Some o =>
      match OutfitEntry.collection o with
      | None => context
      | Some collection =>
          let nested_colls := get_all_nested_collections collection in
          let layer_collection := layer_collection context in
          let states :=
            foldl (fun states coll =>
                     match find_layer_collection layer_collection (coll_id coll)
                             ≫= node_at layer_collection with
                     | Some layer_coll =>
                         states ++ [NestedCollectionState.mk (Some coll)
                                                             (exclude layer_coll)]
                     | None => states
                     end)
                  [] nested_colls in
          update_outfit context outfit
            (fun o => OutfitEntry.set_nested_states o states)
      end
  end.

(** Assigns to the node of every snapshot entry that resolves the flag
    the entry records, in the order of the entries. *)
Definition restore_nested_states (context : Context) (outfit : nat) : Context :=
  match amarillo_outfits context !! outfit with
  | None => context
  | Some o =>
      match OutfitEntry.collection o with
      | None => context
      | Some _ =>
          with_layer_collection context
            (foldl (fun layer_collection state =>
                      match NestedCollectionState.collection state with
                      | Some collection =>
                          match find_layer_collection layer_collection
                                  (coll_id collection) with
                          | Some layer_coll =>
                              set_exclude layer_collection layer_coll
                                (NestedCollectionState.was_excluded state)
                          | None => layer_collection
                          end
                      | None => layer_collection
                      end)
                   (layer_collection context) (OutfitEntry.nested_states o))
      end
  end.

(** "Quickly activate this outfit": the outfit at [outfit_index]. *)
Definition execute (outfit_index : Z) (context : Context) : Outcome :=
  let outfits := amarillo_outfits context in
  if len outfits <=? outfit_index then CANCELLED None context
  else
    let current_index := amarillo_active_outfit_index context in
    match (if current_index <? len outfits
           then Some <$> getitem outfits current_index
           else Some None) with
    | None => IndexError context
    | Some current_outfit =>
    match getitem outfits outfit_index with
    | None => IndexError context
    | Some target_outfit =>
        (* Store states and reset shape keys of current outfit *)
        let context :=
          match current_outfit with
          | Some current_outfit =>
              reset_outfit_shape_keys
                (store_nested_states context current_outfit) current_outfit
          | None => context
          end in
        (* Disable all outfit collections *)
        let context :=
          with_layer_collection context
            (foldl (fun layer_collection outfit =>
                      match OutfitEntry.collection outfit with
                      | Some collection =>
                          match find_layer_collection layer_collection
                                  (coll_id collection) with
                          | Some layer_coll => set_exclude layer_collection layer_coll true
                          | None => layer_collection
                          end
                      | None => layer_collection
                      end)
                   (layer_collection context) (amarillo_outfits context)) in
        (* Enable target outfit's collection and restore nested states *)
        let context :=
          match amarillo_outfits context !! target_outfit
                  ≫= OutfitEntry.collection with
          | Some collection =>
              match find_layer_collection (layer_collection context)
                      (coll_id collection) with
              | Some layer_coll =>
                  restore_nested_states
                    (with_layer_collection context
                       (set_exclude (layer_collection context) layer_coll false))
                    target_outfit
              | None => context
              end
          | None => context
          end in
        (* Apply shape key values for target outfit *)
        let context :=
          with_objects context
            (foldl (fun obs shape_key_entry =>
                      match resolve_key_block obs (ShapeKeyEntry.model shape_key_entry)
                                              (ShapeKeyEntry.name shape_key_entry) with
                      | Some key_block =>
                          set_value obs key_block (ShapeKeyEntry.value shape_key_entry)
                      | None => obs
                      end)
                   (objects context)
                   (default [] (OutfitEntry.shape_keys
                                  <$> amarillo_outfits context !! target_outfit))) in
        (* Update active index *)
        FINISHED (with_active_outfit_index context outfit_index)
    end
    end.

End AMARILLO_OT_quick_activate_outfit.

Module AMARILLO_OT_activate_outfit.

(** Writes [0.0] into the live key block of every override that resolves.
    (A position always designates an outfit where the operators call the
    helpers; the [None] branches are there for totality.) *)
Definition reset_outfit_shape_keys (context : Context) (outfit : nat) : Context :=
  match amarillo_outfits context !! outfit with
  | None => context
  | Some o =>
      with_objects context
        (foldl (fun obs shape_key_entry =>
                  match resolve_key_block obs (ShapeKeyEntry.model shape_key_entry)
                                          (ShapeKeyEntry.name shape_key_entry) with
                  | Some key_block => set_value obs key_block 0%Q
                  | None => obs
                  end)
               (objects context) (OutfitEntry.shape_keys o))
  end.

(** Depth-first search, in pre-order, for the first view-layer node that
    points to the collection; the result is a reference to that node. *)
Fixpoint find_layer_collection (layer_collection : LayerCollection)
    (collection : CollId) : option NodeRef :=
  match layer_collection with
  | MkLayerCollection c _ children =>
      if Pos.eqb c collection then Some []
      else
        (fix loop (i : nat) (children : list LayerCollection) : option NodeRef :=
           match children with
           | [] => None
           | child :: rest =>
               match find_layer_collection child collection with
               | Some found => Some (i :: found)
               | None => loop (S i) rest
               end
           end) 0%nat children
  end.

(** Every descendant of the collection, in pre-order, the collection
    itself excluded. *)
Fixpoint get_all_nested_collections (collection : Collection) : list Collection :=
  match collection with
  | MkCollection _ _ children =>
      (fix loop (result : list Collection) (children : list Collection)
         : list Collection :=
         match children with
         | [] => result
         | child :: rest =>
             loop (result ++ [child] ++ get_all_nested_collections child) rest
         end) [] children
  end.

(** Replaces the snapshot of the outfit by one entry per descendant of its
    bound collection that resolves in the view layer, recording the flag
    of the node found. *)
Definition store_nested_states (context : Context) (outfit : nat) : Context :=
  match amarillo_outfits context !! outfit with
  | None => context
  | Some o =>
      match OutfitEntry.collection o with
      | None => context
      | Some collection =>
          let nested_colls := get_all_nested_collections collection in
          let layer_collection := layer_collection context in
          let states :=
            foldl (fun states coll =>
                     match find_layer_collection layer_collection (coll_id coll)
                             ≫= node_at layer_collection with
                     | Some layer_coll =>
                         states ++ [NestedCollectionState.mk (Some coll)
                                                             (exclude layer_coll)]
                     | None => states
                     end)
                  [] nested_colls in
          update_outfit context outfit
            (fun o => OutfitEntry.set_nested_states o states)
      end
  end.

(** Assigns to the node of every snapshot entry that resolves the flag
    the entry records, in the order of the entries. *)
Definition restore_nested_states (context : Context) (outfit : nat) : Context :=
  match amarillo_outfits context !! outfit with
  | None => context
  | Some o =>
      match OutfitEntry.collection o with
      | None => context
      | Some _ =>
          with_layer_collection context
            (foldl (fun layer_collection state =>
                      match NestedCollectionState.collection state with
                      | Some collection =>
                          match find_layer_collection layer_collection
                                  (coll_id collection) with
                          | Some layer_coll =>
                              set_exclude layer_collection layer_coll
                                (NestedCollectionState.was_excluded state)
                          | None => layer_collection
                          end
                      | None => layer_collection
                      end)
                   (layer_collection context) (OutfitEntry.nested_states o))
      end
  end.

(** "Activate the selected outfit and apply shape key values". *)
Definition execute (context : Context) : Outcome :=
  let outfits := amarillo_outfits context in
  let active_index := amarillo_active_outfit_index context in
  match getitem outfits active_index with
  | None => IndexError context
  | Some current_outfit =>
      (* Store states and reset shape keys of current outfit *)
      let context :=
        reset_outfit_shape_keys
          (store_nested_states context current_outfit) current_outfit in
      (* Disable all outfit collections *)
      let context :=
        with_layer_collection context
          (foldl (fun layer_collection outfit =>
                    match OutfitEntry.collection outfit with
                    | Some collection =>
                        match find_layer_collection layer_collection
                                (coll_id collection) with
                        | Some layer_coll => set_exclude layer_collection layer_coll true
                        | None => layer_collection
                        end
                    | None => layer_collection
                    end)
                 (layer_collection context) (amarillo_outfits context)) in
      (* Enable the selected outfit's collection and restore nested states *)
      let context :=
        match amarillo_outfits context !! current_outfit
                ≫= OutfitEntry.collection with
        | Some collection =>
            match find_layer_collection (layer_collection context)
                    (coll_id collection) with
            | Some layer_coll =>
                restore_nested_states
                  (with_layer_collection context
                     (set_exclude (layer_collection context) layer_coll false))
                  current_outfit
            | None => context
            end
        | None => context
        end in
      (* Apply shape key values *)
      let context :=
        with_objects context
          (foldl (fun obs shape_key_entry =>
                    match resolve_key_block obs (ShapeKeyEntry.model shape_key_entry)
                                            (ShapeKeyEntry.name shape_key_entry) with
                    | Some key_block =>
                        set_value obs key_block (ShapeKeyEntry.value shape_key_entry)
                    | None => obs
                    end)
                 (objects context)
                 (default [] (OutfitEntry.shape_keys
                                <$> amarillo_outfits context !! current_outfit))) in
      FINISHED context
  end.

End AMARILLO_OT_activate_outfit.

(** The remaining operators, the lookup behind the quick-activate button
    and the panel's lookup of the selected outfit. *)

(** [coll.move(key, pos)] on a collection property: the element at [key]
    is taken out and put back at [pos]; nothing happens unless both are
    positions of the sequence and differ. *)
Definition move {A} (l : list A) (key pos : Z) : list A :=
  if (0 <=? key) && (key <? len l) && (0 <=? pos) && (pos <? len l)
     && negb (key =? pos)
  then match l !! Z.to_nat key with
       | Some x =>
           take (Z.to_nat pos) (delete (Z.to_nat key) l)
           ++ x :: drop (Z.to_nat pos) (delete (Z.to_nat key) l)
       | None => l
       end
  else l.

(** [coll.find(name)]: the position of the first element of that name,
    [-1] when there is none. *)
Fixpoint find_from (i : Z) (outfits : list OutfitEntry.t) (n : string) : Z :=
  match outfits with
  | [] => -1
  | o :: rest =>
      if String.eqb (OutfitEntry.name o) n then i else find_from (i + 1) rest n
  end.

Definition find (outfits : list OutfitEntry.t) (n : string) : Z :=
  find_from 0 outfits n.

Module AMARILLO_OT_add_outfit.

(** The entry [outfits.add()] creates: every property at its default. *)
Definition added : OutfitEntry.t := OutfitEntry.mk String.EmptyString None [] 0 [].

(** The search the operator defines for itself; it is the search of the
    activation operators. *)
Fixpoint find_layer_collection (layer_coll : LayerCollection)
    (collection : CollId) : option NodeRef :=
  match layer_coll with
  | MkLayerCollection c _ children =>
      if Pos.eqb c collection then Some []
      else
        (fix loop (i : nat) (children : list LayerCollection) : option NodeRef :=
           match children with
           | [] => None
           | child :: rest =>
               match find_layer_collection child collection with
               | Some result => Some (i :: result)
               | None => loop (S i) rest
               end
           end) 0%nat children
  end.

(** "Add a new outfit entry".  [selected_collections] is the list the
    operator filters out of [context.selected_objects] (the entries of
    type ['COLLECTION']), taken as the collections it binds;
    [collection] is [context.collection].  The pointer
    [layer_coll.collection] of the node found is the collection that was
    searched. *)
Definition execute (selected_collections : list Collection)
    (collection : option Collection) (context : Context) : Outcome :=
  let new_outfit := length (amarillo_outfits context) in
  let context := with_outfits context (amarillo_outfits context ++ [added]) in
  let context :=
    match selected_collections with
    | first :: _ =>
        update_outfit context new_outfit
          (fun o => OutfitEntry.set_collection o (Some first))
    | [] =>
        match collection with
        | Some active =>
            match find_layer_collection (layer_collection context) (coll_id active) with
            | Some _ =>
                update_outfit context new_outfit
                  (fun o => OutfitEntry.set_collection o (Some active))
            | None => context
            end
        | None => context
        end
    end in
  (* Name will be automatically set by the collection update callback *)
  let context :=
    match amarillo_outfits context !! new_outfit ≫= OutfitEntry.collection with
    | Some _ => context
    | None =>
        update_outfit context new_outfit (fun o =>
          OutfitEntry.mk ("Outfit " +:+ pretty (length (amarillo_outfits context)))
                         (OutfitEntry.collection o) (OutfitEntry.shape_keys o)
                         (OutfitEntry.active_shape_key_index o)
                         (OutfitEntry.nested_states o))
    end in
  FINISHED context.

End AMARILLO_OT_add_outfit.

Module AMARILLO_OT_add_managed_model.

Definition already_managed : string := "Model already managed".
Definition no_mesh : string := "Please select a mesh object".

(** "Add a new managed model".  [active_object] is
    [context.active_object]: the identity of the object and its [type]. *)
Definition execute (active_object : option (ObjId * string)) (context : Context)
    : Outcome :=
  match active_object with
  | Some (object, type) =>
      if String.eqb type "MESH" then
        let models := amarillo_managed_models context in
        (* Check if model already exists *)
        if existsb (fun model =>
                      bool_decide (ManagedModelEntry.object model = Some object))
                   models
        then CANCELLED (Some already_managed) context
        else
          FINISHED (with_managed_models context
                      (models ++ [ManagedModelEntry.mk String.EmptyString (Some object)]))
      else CANCELLED (Some no_mesh) context
  | None => CANCELLED (Some no_mesh) context
  end.

End AMARILLO_OT_add_managed_model.

Module AMARILLO_OT_remove_shape_key.

(** "Remove the selected shape key entry". *)
Definition execute (context : Context) : Outcome :=
  match getitem (amarillo_outfits context) (amarillo_active_outfit_index context) with
  | None => IndexError context
  | Some outfit =>
      let context := update_outfit context outfit (fun o =>
        OutfitEntry.set_shape_keys o
          (remove (OutfitEntry.shape_keys o) (OutfitEntry.active_shape_key_index o))) in
      FINISHED (update_outfit context outfit (fun o =>
        OutfitEntry.set_active_shape_key_index o
          (Z.max 0 (OutfitEntry.active_shape_key_index o - 1))))
  end.

End AMARILLO_OT_remove_shape_key.

Module AMARILLO_OT_move_outfit.

Inductive Direction : Type := UP | DOWN.

(** "Move outfit up or down in the list". *)
Definition execute (direction : Direction) (context : Context) : Outcome :=
  let outfits := amarillo_outfits context in
  let index := amarillo_active_outfit_index context in
  match direction with
  | UP =>
      if 0 <? index then
        FINISHED (with_active_outfit_index
                    (with_outfits context (move outfits index (index - 1)))
                    (index - 1))
      else FINISHED context
  | DOWN =>
      if index <? len outfits - 1 then
        FINISHED (with_active_outfit_index
                    (with_outfits context (move outfits index (index + 1)))
                    (index + 1))
      else FINISHED context
  end.

End AMARILLO_OT_move_outfit.

Module AMARILLO_UL_outfits.

(** [draw_item]: the index the quick-activate button of a list item is
    given, [op.outfit_index = context.scene.amarillo_outfits.find(item.name)]. *)
Definition outfit_index (context : Context) (item : OutfitEntry.t) : Z :=
  find (amarillo_outfits context) (OutfitEntry.name item).

End AMARILLO_UL_outfits.

Module AMARILLO_PT_outfit_manager.

(** [draw]: the outfit whose collection and shape-key list the panel
    shows.  [Some None]: no outfit, the section is left out; [None]: the
    lookup raises [IndexError]. *)
Definition shown_outfit (context : Context) : option (option nat) :=
  if 0 <? len (amarillo_outfits context)
  then Some <$> getitem (amarillo_outfits context) (amarillo_active_outfit_index context)
  else Some None.

(** The operator buttons laid out by [draw], and by [draw_item] of the
    outfit list for each of its items.  A button carries what its
    operator reads from the context besides the scene: the selected
    collections and the active collection for add-outfit, the active
    object for add-model.  [quick_activate_outfit j] is the button of the
    list item at position [j]. *)
Inductive Button : Type :=
| add_outfit (selected_collections : list Collection) (collection : option Collection)
| remove_outfit
| move_outfit (direction : AMARILLO_OT_move_outfit.Direction)
| add_shape_key
| remove_shape_key
| add_managed_model (active_object : option (ObjId * string))
| remove_managed_model
| quick_activate_outfit (item : nat).

(** Pressing a button runs its operator.  [None]: the panel has no such
    button.  The outfit buttons are laid out first; the shape-key buttons
    only inside [if len(scene.amarillo_outfits) > 0], after the lookup of
    the selected outfit; the model buttons last, so not when that lookup
    raised; a quick-activate button for every item of the list. *)
Definition press (b : Button) (context : Context) : option Outcome :=
  match b with
  | add_outfit selected_collections collection =>
      Some (AMARILLO_OT_add_outfit.execute selected_collections collection context)
  | remove_outfit => Some (AMARILLO_OT_remove_outfit.execute context)
  | move_outfit direction =>
      Some (AMARILLO_OT_move_outfit.execute direction context)
  | add_shape_key =>
      match shown_outfit context with
      | Some (Some _) => Some (AMARILLO_OT_add_shape_key.execute context)
      | _ => None
      end
  | remove_shape_key =>
      match shown_outfit context with
      | Some (Some _) => Some (AMARILLO_OT_remove_shape_key.execute context)
      | _ => None
      end
  | add_managed_model active_object =>
      match shown_outfit context with
      | Some _ => Some (AMARILLO_OT_add_managed_model.execute active_object context)
      | None => None
      end
  | remove_managed_model =>
      match shown_outfit context with
      | Some _ => Some (AMARILLO_OT_remove_managed_model.execute context)
      | None => None
      end
  | quick_activate_outfit j =>
      match amarillo_outfits context !! j with
      | Some item =>
          Some (AMARILLO_OT_quick_activate_outfit.execute
                  (AMARILLO_UL_outfits.outfit_index context item) context)
      | None => None
      end
  end.

End AMARILLO_PT_outfit_manager.

(** ** Views used by the specifications

    Nothing below is executed by an operator; these definitions name what
    the theorems talk about. *)

Abbreviation find_layer_collection :=
  AMARILLO_OT_quick_activate_outfit.find_layer_collection.
Abbreviation get_all_nested_collections :=
  AMARILLO_OT_quick_activate_outfit.get_all_nested_collections.
Abbreviation store_nested_states :=
  AMARILLO_OT_quick_activate_outfit.store_nested_states.
Abbreviation restore_nested_states :=
  AMARILLO_OT_quick_activate_outfit.restore_nested_states.
Abbreviation reset_outfit_shape_keys :=
  AMARILLO_OT_quick_activate_outfit.reset_outfit_shape_keys.

(** The [for child in layer_collection.children] loop of
    [find_layer_collection], named. *)
Definition find_in_children (collection : CollId)
    : nat -> list LayerCollection -> option NodeRef :=
  fix loop (i : nat) (children : list LayerCollection) : option NodeRef :=
    match children with
    | [] => None
    | child :: rest =>
        match find_layer_collection child collection with
        | Some found => Some (i :: found)
        | None => loop (S i) rest
        end
    end.

(** The exclusion flag of a collection in a view layer: the flag of the
    node [find_layer_collection] resolves it to; [None] when the collection
    does not resolve. *)
Definition flag (lc : LayerCollection) (c : CollId) : option bool :=
  exclude <$> (find_layer_collection lc c ≫= node_at lc).

(** [find_layer_collection], then [layer_coll.exclude = v] if found. *)
Definition write_flag (lc : LayerCollection) (c : CollId) (v : bool) : LayerCollection :=
  match find_layer_collection lc c with
  | Some p => set_exclude lc p v
  | None => lc
  end.

(** A live shape-key weight is addressed the way an override addresses
    it: by model pointer and key name. *)
Definition KeyAddr : Type := option ObjId * string.

Definition weight (obs : gmap ObjId Object.t) (k : KeyAddr) : option Q :=
  resolve_key_block obs k.1 k.2 ≫= value_at obs.

Definition write_weight (obs : gmap ObjId Object.t) (k : KeyAddr) (v : Q)
    : gmap ObjId Object.t :=
  match resolve_key_block obs k.1 k.2 with
  | Some r => set_value obs r v
  | None => obs
  end.

(** A run of guarded assignments, and the value the last assignment to a
    given address carries. *)
Definition writes {S K V} (write : S -> K -> V -> S) (s : S) (ws : list (K * V)) : S :=
  foldl (fun s w => write s w.1 w.2) s ws.

Fixpoint last_write {K V} `{EqDecision K} (ws : list (K * V)) (k : K) : option V :=
  match ws with
  | [] => None
  | w :: rest =>
      match last_write rest k with
      | Some v => Some v
      | None => if decide (w.1 = k) then Some w.2 else None
      end
  end.

(** The assignments of the hide-all pass, of a snapshot restore, and of a
    pass over an override list. *)
Definition hide_writes (outfits : list OutfitEntry.t) : list (CollId * bool) :=
  omap (fun o => (fun c => (coll_id c, true)) <$> OutfitEntry.collection o) outfits.

Definition snapshot_writes (states : list NestedCollectionState.t)
    : list (CollId * bool) :=
  omap (fun st => (fun c => (coll_id c, NestedCollectionState.was_excluded st))
                    <$> NestedCollectionState.collection st) states.

Definition override_addr (e : ShapeKeyEntry.t) : KeyAddr :=
  (ShapeKeyEntry.model e, ShapeKeyEntry.name e).

Definition override_writes (f : ShapeKeyEntry.t -> Q) (sks : list ShapeKeyEntry.t)
    : list (KeyAddr * Q) :=
  (fun e => (override_addr e, f e)) <$> sks.

(** The snapshot [store_nested_states] builds for a list of collections. *)
Definition snapshot_of (lc : LayerCollection) (colls : list Collection)
    : list NestedCollectionState.t :=
  omap (fun coll =>
          (fun node => NestedCollectionState.mk (Some coll) (exclude node))
            <$> (find_layer_collection lc (coll_id coll) ≫= node_at lc))
       colls.

(** The part of [execute] that both activation operators run once their
    indices are resolved: [current] is the outfit that is snapshotted and
    reset, [target] the one that is shown. *)
Definition transition (current : option nat) (target : nat) (context : Context)
    : Context :=
  let context :=
    match current with
    | Some current_outfit =>
        reset_outfit_shape_keys (store_nested_states context current_outfit)
                                current_outfit
    | None => context
    end in
  let context :=
    with_layer_collection context
      (writes write_flag (layer_collection context)
              (hide_writes (amarillo_outfits context))) in
  let context :=
    match amarillo_outfits context !! target ≫= OutfitEntry.collection with
    | Some collection =>
        match find_layer_collection (layer_collection context) (coll_id collection) with
        | Some layer_coll =>
            restore_nested_states
              (with_layer_collection context
                 (set_exclude (layer_collection context) layer_coll false))
              target
        | None => context
        end
    | None => context
    end in
  with_objects context
    (writes write_weight (objects context)
       (override_writes ShapeKeyEntry.value
          (default [] (OutfitEntry.shape_keys <$> amarillo_outfits context !! target)))).

(** The same transition in closed form: the outfit sequence, the
    assignments to exclusion flags and the assignments to live weights
    that a transition makes, as functions of the context it starts in. *)
Definition snapshot_outfit (lc : LayerCollection) (o : OutfitEntry.t) : OutfitEntry.t :=
  match OutfitEntry.collection o with
  | Some collection =>
      OutfitEntry.set_nested_states o
        (snapshot_of lc (get_all_nested_collections collection))
  | None => o
  end.

Definition outfits_after (current : option nat) (ctx : Context) : list OutfitEntry.t :=
  match current with
  | Some p => alter (snapshot_outfit (layer_collection ctx)) p (amarillo_outfits ctx)
  | None => amarillo_outfits ctx
  end.

Definition show_writes (lc : LayerCollection) (o : option OutfitEntry.t)
    : list (CollId * bool) :=
  match o with
  | Some o =>
      match OutfitEntry.collection o with
      | Some collection =>
          match find_layer_collection lc (coll_id collection) with
          | Some _ =>
              (coll_id collection, false) :: snapshot_writes (OutfitEntry.nested_states o)
          | None => []
          end
      | None => []
      end
  | None => []
  end.

Definition flag_writes (current : option nat) (target : nat) (ctx : Context)
    : list (CollId * bool) :=
  hide_writes (outfits_after current ctx)
  ++ show_writes (layer_collection ctx) (outfits_after current ctx !! target).

Definition shape_keys_at (outfits : list OutfitEntry.t) (p : nat)
    : list ShapeKeyEntry.t :=
  default [] (OutfitEntry.shape_keys <$> outfits !! p).

Definition weight_writes (current : option nat) (target : nat) (ctx : Context)
    : list (KeyAddr * Q) :=
  match current with
  | Some p => override_writes (fun _ => 0%Q) (shape_keys_at (amarillo_outfits ctx) p)
  | None => []
  end
  ++ override_writes ShapeKeyEntry.value (shape_keys_at (amarillo_outfits ctx) target).

(** What an activation leaves alone in an outfit, in an object and in the
    view-layer tree. *)
Definition outfit_frame (o : OutfitEntry.t)
    : string * option Collection * list ShapeKeyEntry.t * Z :=
  (OutfitEntry.name o, OutfitEntry.collection o, OutfitEntry.shape_keys o,
   OutfitEntry.active_shape_key_index o).

Definition object_frame (ob : Object.t) : option (list string) * nat :=
  (fmap (M:=list) KeyBlock.name <$> Object.shape_keys ob,
   Object.active_shape_key_index ob).

Fixpoint layer_frame (lc : LayerCollection) : LayerCollection :=
  match lc with
  | MkLayerCollection c _ children =>
      MkLayerCollection c false
        ((fix loop (l : list LayerCollection) : list LayerCollection :=
            match l with
            | [] => []
            | x :: r => layer_frame x :: loop r
            end) children)
  end.

(** The frame of an activation: apart from the active outfit index, the
    context may differ only in the snapshot of the previously active
    outfit, in exclusion flags and in live weights. *)
Definition activation_frame (previous : option nat) (ctx ctx' : Context) : Prop :=
  outfit_frame <$> amarillo_outfits ctx' = outfit_frame <$> amarillo_outfits ctx
  /\ (forall j, previous <> Some j -> amarillo_outfits ctx' !! j = amarillo_outfits ctx !! j)
  /\ amarillo_managed_models ctx' = amarillo_managed_models ctx
  /\ amarillo_active_model_index ctx' = amarillo_active_model_index ctx
  /\ layer_frame (layer_collection ctx') = layer_frame (layer_collection ctx)
  /\ object_frame <$> objects ctx' = object_frame <$> objects ctx.



Definition target_shown (ctx' : Context) (target : nat) : Prop :=
  forall T c,
    amarillo_outfits ctx' !! target = Some T ->
    OutfitEntry.collection T = Some c ->
    is_Some (flag (layer_collection ctx') (coll_id c)) ->
    flag (layer_collection ctx') (coll_id c) = Some false.





(** An index that designates an outfit without wrap-around. *)
Definition in_bounds {A} (l : list A) (i : Z) : Prop := 0 <= i < len l.

(** An outfit's active override index is in range: within [[0, len-1]], or
    [0] when the override list is empty. *)
Definition active_index_ok (o : OutfitEntry.t) : Prop :=
  0 <= OutfitEntry.active_shape_key_index o
    <= Z.max 0 (len (OutfitEntry.shape_keys o) - 1).

(** The overrides an unregistration must keep: those that do not
    reference the removed object. *)
Definition kept_overrides (object : option ObjId) (sks : list ShapeKeyEntry.t)
    : list ShapeKeyEntry.t :=
  filter (fun sk => ShapeKeyEntry.model sk <> object) sks.

(** ** A small scene

    The scenario of the addon's documentation: an outfit "Casual" bound to
    a collection with a nested "Shoes" collection, an outfit "Formal", and
    one managed body mesh with a few shape keys. *)

Definition shoes : Collection := MkCollection 2%positive "Shoes" [].
Definition casual : Collection := MkCollection 1%positive "Casual" [shoes].
Definition formal : Collection := MkCollection 3%positive "Formal" [].

Definition example_layer : LayerCollection :=
  MkLayerCollection 100%positive false
    [ MkLayerCollection 1%positive false [ MkLayerCollection 2%positive false [] ];
      MkLayerCollection 3%positive true [] ].

Definition body : ObjId := 7%positive.

Definition body_mesh : Object.t :=
  Object.mk (Some [ KeyBlock.mk "Basis" 0; KeyBlock.mk "Smile" (1 # 2);
                    KeyBlock.mk "Frown" 0 ])
            1%nat.

Definition casual_outfit : OutfitEntry.t :=
  OutfitEntry.mk "Casual" (Some casual)
                 [ ShapeKeyEntry.mk "Smile" (4 # 5) (Some body) ] 0 [].
Definition formal_outfit : OutfitEntry.t :=
  OutfitEntry.mk "Formal" (Some formal)
                 [ ShapeKeyEntry.mk "Frown" 1 (Some body) ] 0 [].

Definition example_scene : Context :=
  MkContext [ casual_outfit; formal_outfit ] 0
            [ ManagedModelEntry.mk String.EmptyString (Some body) ] 0
            example_layer {[ body := body_mesh ]}.

(** The same scene before any outfit was added. *)
Definition empty_scene : Context :=
  MkContext [] 0 [ ManagedModelEntry.mk String.EmptyString (Some body) ] 0
            example_layer {[ body := body_mesh ]}.

Definition hat : ObjId := 8%positive.

(** "Casual" after its override list shrank under a stale active index;
    the registry also manages a hat that no outfit refers to. *)
Definition stale_index_scene : Context :=
  MkContext [ OutfitEntry.set_active_shape_key_index casual_outfit 3; formal_outfit ] 0
            [ ManagedModelEntry.mk String.EmptyString (Some hat);
              ManagedModelEntry.mk String.EmptyString (Some body) ] 0
            example_layer {[ body := body_mesh ]}.




(** An outfit bound to a collection that is not linked into the view
    layer, while its child "Formal" is; the outfit overrides "Smile"
    twice. *)
Definition wardrobe : Collection := MkCollection 4%positive "Wardrobe" [formal].

Definition wardrobe_outfit : OutfitEntry.t :=
  OutfitEntry.mk "Wardrobe" (Some wardrobe)
                 [ ShapeKeyEntry.mk "Smile" (4 # 5) (Some body);
                   ShapeKeyEntry.mk "Smile" (1 # 5) (Some body) ] 0 [].


(** A scene in which every active override index is in range: "Formal"
    is selected, carries four overrides and has the last one active; the
    registry manages the body and a hat. *)
Definition four_override_scene : Context :=
  MkContext
    [ casual_outfit;
      OutfitEntry.mk "Formal" (Some formal)
        [ ShapeKeyEntry.mk "Frown" 1 (Some body);
          ShapeKeyEntry.mk "Smile" 0 (Some body);
          ShapeKeyEntry.mk "Frown" (1 # 2) (Some body);
          ShapeKeyEntry.mk "Smile" (1 # 2) (Some body) ] 3 [] ] 1
    [ ManagedModelEntry.mk String.EmptyString (Some hat);
      ManagedModelEntry.mk String.EmptyString (Some body) ] 0
    example_layer {[ body := body_mesh ]}.

(** A rebinding.  "Wardrobe" (here linked into the view layer, with
    "Formal" nested in it) is left for "Formal", which snapshots it; then
    the user binds the first outfit to the "Casual" collection instead. *)
Definition linked_wardrobe_scene : Context :=
  MkContext [ wardrobe_outfit; formal_outfit ] 0
            [ ManagedModelEntry.mk String.EmptyString (Some body) ] 0
            (MkLayerCollection 100%positive false
               [ MkLayerCollection 4%positive false [ MkLayerCollection 3%positive false [] ];
                 MkLayerCollection 1%positive true [ MkLayerCollection 2%positive false [] ] ])
            {[ body := body_mesh ]}.

Definition rebound_scene : Context :=
  update_outfit
    (final_context (AMARILLO_OT_quick_activate_outfit.execute 1 linked_wardrobe_scene))
    0 (fun o => OutfitEntry.set_collection o (Some casual)).

(** ** Views used by the further properties *)

(** The collections the nodes of a view-layer tree point to, in
    pre-order. *)
Fixpoint layer_ids (lc : LayerCollection) : list CollId :=
  match lc with
  | MkLayerCollection c _ children =>
      c :: (fix loop (l : list LayerCollection) : list CollId :=
              match l with
              | [] => []
              | x :: r => layer_ids x ++ loop r
              end) children
  end.

(** The number of collections in a containment tree, the root included. *)
Fixpoint collection_size (c : Collection) : nat :=
  match c with
  | MkCollection _ _ children =>
      S ((fix loop (l : list Collection) : nat :=
            match l with
            | [] => 0%nat
            | x :: r => (collection_size x + loop r)%nat
            end) children)
  end.

(** The [for child in collection.children] loop of
    [get_all_nested_collections], named. *)
Definition nested_loop : list Collection -> list Collection -> list Collection :=
  fix loop (result : list Collection) (children : list Collection)
    : list Collection :=
    match children with
    | [] => result
    | child :: rest =>
        loop (result ++ [child] ++ get_all_nested_collections child) rest
    end.

(** The selection of the outfit list is in range: within [[0, len-1]], or
    [0] when there is no outfit. *)
Definition outfit_selection_ok (ctx : Context) : Prop :=
  0 <= amarillo_active_outfit_index ctx <= Z.max 0 (len (amarillo_outfits ctx) - 1).

(** The objects the registry manages. *)
Definition managed_objects (ctx : Context) : list ObjId :=
  omap ManagedModelEntry.object (amarillo_managed_models ctx).

(** The selection of the model list is in range: within [[0, len-1]], or
    [0] when there is no model. *)
Definition model_selection_ok (ctx : Context) : Prop :=
  0 <= amarillo_active_model_index ctx
    <= Z.max 0 (len (amarillo_managed_models ctx) - 1).

(** Every override of every outfit refers to an object the registry
    manages. *)
Definition overrides_managed (ctx : Context) : Prop :=
  forall o sk,
    o ∈ amarillo_outfits ctx -> sk ∈ OutfitEntry.shape_keys o ->
    exists ob, ShapeKeyEntry.model sk = Some ob /\ ob ∈ managed_objects ctx.

(** The invariants of the data model: both selections in range, no object
    managed twice, no override of an unmanaged object. *)
Definition scene_ok (ctx : Context) : Prop :=
  outfit_selection_ok ctx /\ model_selection_ok ctx
  /\ NoDup (managed_objects ctx) /\ overrides_managed ctx.

(** A session at the panel: buttons pressed one after the other, each on
    the scene the one before left, whether its operator finished,
    cancelled or raised.  Pressing a button the panel does not have does
    nothing. *)
Fixpoint session (buttons : list AMARILLO_PT_outfit_manager.Button)
    (ctx : Context) : Context :=
  match buttons with
  | [] => ctx
  | b :: rest =>
      session rest
        (match AMARILLO_PT_outfit_manager.press b ctx with
         | Some r => final_context r
         | None => ctx
         end)
  end.

(** * Properties *)

(** ** The view-layer tree *)

Lemma LayerCollection_tree_ind (P : LayerCollection -> Prop) :
  (forall c e children, Forall P children -> P (MkLayerCollection c e children)) ->
  forall lc, P lc.
Proof.
  intros step. fix IH 1. intros [c e children]. apply step.
  induction children as [|child rest IHrest]; constructor; [apply IH | exact IHrest].
Qed.

Lemma find_layer_collection_unfold c e children x :
  find_layer_collection (MkLayerCollection c e children) x
  = if Pos.eqb c x then Some [] else find_in_children x 0 children.
Proof. reflexivity. Qed.

Lemma find_in_children_Some x children : forall i p,
  find_in_children x i children = Some p ->
  exists j child q,
    p = (i + j)%nat :: q /\ children !! j = Some child
    /\ find_layer_collection child x = Some q.
Proof.
  induction children as [|child rest IH]; intros i p H; simpl in H; [discriminate|].
  destruct (find_layer_collection child x) as [found|] eqn:E.
  - injection H as <-. exists 0%nat, child, found.
    rewrite Nat.add_0_r. auto.
  - destruct (IH _ _ H) as (j & child' & q & -> & Hj & Hq).
    exists (S j), child', q. split; [f_equal; lia | auto].
Qed.

(** A found reference designates a node, and that node points to the
    collection that was searched. *)
Lemma find_layer_collection_node lc : forall x p,
  find_layer_collection lc x = Some p ->
  exists n, node_at lc p = Some n /\ lc_collection n = x.
Proof.
  induction lc as [c e children IH] using LayerCollection_tree_ind; intros x p H.
  rewrite find_layer_collection_unfold in H.
  destruct (Pos.eqb_spec c x) as [->|Hne].
  - injection H as <-. eexists; split; reflexivity.
  - apply find_in_children_Some in H as (j & child & q & -> & Hj & Hq).
    simpl. rewrite Hj.
    rewrite Forall_lookup in IH. exact (IH _ _ Hj _ _ Hq).
Qed.

Lemma find_in_children_insert x children : forall i k child child',
  children !! k = Some child ->
  find_layer_collection child' x = find_layer_collection child x ->
  find_in_children x i (<[k := child']> children) = find_in_children x i children.
Proof.
  induction children as [|c0 rest IH]; intros i k child child' Hk Heq; [done|].
  destruct k as [|k]; simpl in *.
  - injection Hk as ->. rewrite Heq. reflexivity.
  - destruct (find_layer_collection c0 x); [reflexivity|].
    exact (IH _ _ _ _ Hk Heq).
Qed.

(** Writing a flag does not change what any search finds. *)
Lemma find_layer_collection_set_exclude lc : forall p v x,
  find_layer_collection (set_exclude lc p v) x = find_layer_collection lc x.
Proof.
  induction lc as [c e children IH] using LayerCollection_tree_ind; intros p v x.
  destruct p as [|i q]; simpl; [reflexivity|].
  destruct (children !! i) as [child|] eqn:Hi; [|reflexivity].
  rewrite !find_layer_collection_unfold.
  destruct (Pos.eqb c x); [reflexivity|].
  apply find_in_children_insert with (child := child); [exact Hi|].
  rewrite Forall_lookup in IH. apply (IH _ _ Hi).
Qed.

Lemma node_at_set_exclude_same p : forall lc v n,
  node_at lc p = Some n ->
  node_at (set_exclude lc p v) p
  = Some (MkLayerCollection (lc_collection n) v (lc_children n)).
Proof.
  induction p as [|i q IH]; intros [c e children] v n H; simpl in *.
  - injection H as <-. reflexivity.
  - destruct (children !! i) as [child|] eqn:Hi; [|discriminate].
    simpl. rewrite list_lookup_insert_eq by (eapply lookup_lt_Some; eauto).
    apply IH. exact H.
Qed.

Lemma node_at_set_exclude_other p : forall lc q v,
  p <> q ->
  exclude <$> node_at (set_exclude lc p v) q = exclude <$> node_at lc q.
Proof.
  induction p as [|i p' IH]; intros [c e children] q v Hne.
  - destruct q as [|j q']; [congruence|]. reflexivity.
  - simpl. destruct (children !! i) as [child|] eqn:Hi; [|reflexivity].
    destruct q as [|j q']; [reflexivity|]. simpl.
    destruct (decide (i = j)) as [->|Hij].
    + rewrite list_lookup_insert_eq by (eapply lookup_lt_Some; eauto).
      rewrite Hi. apply IH. congruence.
    + rewrite list_lookup_insert_ne by done. reflexivity.
Qed.


(** The three facts the rest of the development uses about flags. *)
Lemma find_write_flag lc c v x :
  find_layer_collection (write_flag lc c v) x = find_layer_collection lc x.
Proof.
  unfold write_flag. destruct (find_layer_collection lc c); [|reflexivity].
  apply find_layer_collection_set_exclude.
Qed.

Lemma flag_write_flag lc c v c' :
  flag (write_flag lc c v) c'
  = if decide (c = c') then (fun _ => v) <$> flag lc c else flag lc c'.
Proof.
  unfold flag at 1. rewrite find_write_flag. unfold write_flag, flag.
  destruct (find_layer_collection lc c) as [p|] eqn:Hp.
  - destruct (find_layer_collection_node _ _ _ Hp) as (n & Hn & Hc).
    destruct (decide (c = c')) as [<-|Hne].
    + rewrite Hp. simpl. rewrite Hn.
      rewrite (node_at_set_exclude_same _ _ _ _ Hn). reflexivity.
    + destruct (find_layer_collection lc c') as [q|] eqn:Hq; [|reflexivity].
      simpl. apply node_at_set_exclude_other.
      intros ->. destruct (find_layer_collection_node _ _ _ Hq) as (n' & Hn' & Hc').
      congruence.
  - destruct (decide (c = c')) as [<-|Hne]; [|reflexivity].
    rewrite Hp. reflexivity.
Qed.



(** ** Live shape-key weights *)

Lemma key_blocks_get_Some blocks : forall n i,
  key_blocks_get blocks n = Some i ->
  exists b, blocks !! i = Some b /\ KeyBlock.name b = n.
Proof.
  induction blocks as [|b rest IH]; intros n i H; simpl in H; [discriminate|].
  destruct (String.eqb_spec (KeyBlock.name b) n) as [Hn|Hn].
  - injection H as <-. eauto.
  - destruct (key_blocks_get rest n) as [j|] eqn:Hj; [|discriminate].
    injection H as <-. exact (IH _ _ Hj).
Qed.

Lemma key_blocks_get_alter blocks : forall i v n,
  key_blocks_get (alter (fun b => set_block_value b v) i blocks) n
  = key_blocks_get blocks n.
Proof.
  induction blocks as [|b rest IH]; intros i v n; [reflexivity|].
  destruct i as [|i]; simpl; [reflexivity|].
  change (list_alter ?f i rest) with (alter f i rest).
  rewrite IH. reflexivity.
Qed.

Lemma resolve_key_block_Some obs m n r :
  resolve_key_block obs m n = Some r ->
  m = Some r.1 /\
  exists ob blocks b,
    obs !! r.1 = Some ob /\ Object.shape_keys ob = Some blocks
    /\ blocks !! r.2 = Some b /\ KeyBlock.name b = n.
Proof.
  unfold resolve_key_block. destruct m as [o|]; [|discriminate].
  destruct (obs !! o) as [ob|] eqn:Hob; [|discriminate].
  destruct (Object.shape_keys ob) as [blocks|] eqn:Hk; [|discriminate].
  destruct (key_blocks_get blocks n) as [i|] eqn:Hi; [|discriminate].
  intros [= <-]. split; [reflexivity|].
  destruct (key_blocks_get_Some _ _ _ Hi) as (b & Hb & Hn).
  exists ob, blocks, b. auto.
Qed.

Lemma resolve_key_block_set_value obs r v m n :
  resolve_key_block (set_value obs r v) m n = resolve_key_block obs m n.
Proof.
  unfold resolve_key_block, set_value. destruct m as [o|]; [|reflexivity].
  rewrite lookup_alter. destruct (decide (r.1 = o)) as [->|Hne]; [|reflexivity].
  destruct (obs !! o) as [ob|]; [|reflexivity]. simpl.
  destruct (Object.shape_keys ob) as [blocks|]; [|reflexivity]. simpl.
  rewrite key_blocks_get_alter. reflexivity.
Qed.

Lemma value_at_set_value obs r v r' :
  value_at (set_value obs r v) r'
  = if decide (r = r') then (fun _ => v) <$> value_at obs r else value_at obs r'.
Proof.
  unfold value_at, set_value. rewrite lookup_alter.
  destruct r as [o i], r' as [o' i']; simpl.
  destruct (decide (o = o')) as [<-|Ho].
  - destruct (obs !! o) as [ob|]; simpl.
    + destruct (Object.shape_keys ob) as [blocks|]; simpl.
      * rewrite list_lookup_alter.
        destruct (decide (i = i')) as [<-|Hi].
        -- rewrite decide_True by reflexivity.
           destruct (blocks !! i); reflexivity.
        -- rewrite decide_False by congruence. reflexivity.
      * destruct (decide ((o, i) = (o, i'))); reflexivity.
    + destruct (decide ((o, i) = (o, i'))); reflexivity.
  - rewrite decide_False by congruence. reflexivity.
Qed.

Lemma resolve_write_weight obs k v m n :
  resolve_key_block (write_weight obs k v) m n = resolve_key_block obs m n.
Proof.
  unfold write_weight. destruct (resolve_key_block obs k.1 k.2); [|reflexivity].
  apply resolve_key_block_set_value.
Qed.

Lemma weight_write_weight obs k v k' :
  weight (write_weight obs k v) k'
  = if decide (k = k') then (fun _ => v) <$> weight obs k else weight obs k'.
Proof.
  unfold weight at 1. rewrite resolve_write_weight. unfold write_weight, weight.
  destruct (resolve_key_block obs k.1 k.2) as [r|] eqn:Hr.
  - destruct (decide (k = k')) as [<-|Hne].
    + rewrite Hr. simpl. rewrite value_at_set_value.
      rewrite decide_True by reflexivity. reflexivity.
    + destruct (resolve_key_block obs k'.1 k'.2) as [r'|] eqn:Hr'; [|reflexivity].
      simpl. rewrite value_at_set_value. rewrite decide_False; [reflexivity|].
      intros ->. apply Hne.
      destruct (resolve_key_block_Some _ _ _ _ Hr) as (Hm & ob & bl & b & Hob & Hk & Hb & Hn).
      destruct (resolve_key_block_Some _ _ _ _ Hr') as (Hm' & ob' & bl' & b' & Hob' & Hk' & Hb' & Hn').
      destruct k, k'; simpl in *. f_equal; congruence.
  - destruct (decide (k = k')) as [<-|Hne]; [|reflexivity].
    rewrite Hr. reflexivity.
Qed.

(** ** Runs of guarded assignments

    Both stores behave as a family of cells that may or may not resolve:
    an assignment to a resolving cell changes that cell only, an
    assignment to a cell that does not resolve changes nothing. *)

Section Cells.
Context {S K V : Type} `{EqDecision K}.
Variable read : S -> K -> option V.
Variable write : S -> K -> V -> S.
Hypothesis read_write : forall s k v k',
  read (write s k v) k'
  = if decide (k = k') then (fun _ => v) <$> read s k else read s k'.

Lemma writes_snoc s ws w :
  writes write s (ws ++ [w]) = write (writes write s ws) w.1 w.2.
Proof. unfold writes. rewrite foldl_app. reflexivity. Qed.

Lemma writes_app s ws1 ws2 :
  writes write s (ws1 ++ ws2) = writes write (writes write s ws1) ws2.
Proof. unfold writes. apply foldl_app. Qed.



(** After a run, a cell holds the value of the last assignment made to
    it, if it resolves and there was one, and its old value otherwise. *)
Lemma read_writes ws : forall s k,
  read (writes write s ws) k
  = match last_write ws k with
    | Some v => (fun _ => v) <$> read s k
    | None => read s k
    end.
Proof.
  induction ws as [|w ws IH]; intros s k; [reflexivity|].
  unfold writes in *. simpl. rewrite IH.
  destruct (last_write ws k) as [v|].
  - rewrite read_write. destruct (decide (w.1 = k)) as [<-|]; [|reflexivity].
    destruct (read s w.1); reflexivity.
  - rewrite read_write. destruct (decide (w.1 = k)) as [<-|]; reflexivity.
Qed.
End Cells.

Lemma last_write_app {K V} `{EqDecision K} (ws1 ws2 : list (K * V)) k :
  last_write (ws1 ++ ws2) k
  = match last_write ws2 k with
    | Some v => Some v
    | None => last_write ws1 k
    end.
Proof.
  induction ws1 as [|w ws1 IH]; simpl.
  - destruct (last_write ws2 k); reflexivity.
  - rewrite IH. destruct (last_write ws2 k); reflexivity.
Qed.

Lemma last_write_None {K V} `{EqDecision K} (ws : list (K * V)) k :
  (forall v, (k, v) ∉ ws) -> last_write ws k = None.
Proof.
  induction ws as [|[k' v'] ws IH]; intros Hk; [reflexivity|]. simpl.
  rewrite IH.
  - destruct (decide (k' = k)) as [->|]; [|reflexivity].
    exfalso. apply (Hk v'). by left.
  - intros v Hv. apply (Hk v). by right.
Qed.

Lemma last_write_elem {K V} `{EqDecision K} (ws : list (K * V)) k v :
  last_write ws k = Some v -> (k, v) ∈ ws.
Proof.
  induction ws as [|[k' v'] ws IH]; simpl; [discriminate|].
  destruct (last_write ws k) as [v0|].
  - intros [= ->]. right. by apply IH.
  - destruct (decide (k' = k)) as [->|]; [|discriminate].
    intros [= ->]. by left.
Qed.

Lemma last_write_is_Some {K V} `{EqDecision K} (ws : list (K * V)) k v :
  (k, v) ∈ ws -> is_Some (last_write ws k).
Proof.
  induction ws as [|[k' v'] ws IH]; intros Hin; [by apply elem_of_nil in Hin|].
  simpl. destruct (last_write ws k) as [v0|] eqn:E; [eauto|].
  apply elem_of_cons in Hin as [[= <- <-]|Hin].
  - rewrite decide_True by reflexivity. eauto.
  - destruct (IH Hin) as [? [=]].
Qed.


(** ** The loops of the operators as runs of assignments *)

Lemma foldl_writes {S K V A} (write : S -> K -> V -> S) (f : S -> A -> S)
    (g : A -> option (K * V)) :
  (forall s x, f s x = match g x with Some w => write s w.1 w.2 | None => s end) ->
  forall l s, foldl f s l = writes write s (omap g l).
Proof.
  intros Hf. induction l as [|x l IH]; intros s; [reflexivity|].
  simpl. rewrite IH, Hf. destruct (g x); reflexivity.
Qed.

Lemma hide_loop lc outfits :
  foldl (fun layer_collection outfit =>
           match OutfitEntry.collection outfit with
           | Some collection =>
               match find_layer_collection layer_collection (coll_id collection) with
               | Some layer_coll => set_exclude layer_collection layer_coll true
               | None => layer_collection
               end
           | None => layer_collection
           end) lc outfits
  = writes write_flag lc (hide_writes outfits).
Proof.
  apply foldl_writes. intros s o.
  destruct (OutfitEntry.collection o); reflexivity.
Qed.

Lemma restore_loop lc states :
  foldl (fun layer_collection state =>
           match NestedCollectionState.collection state with
           | Some collection =>
               match find_layer_collection layer_collection (coll_id collection) with
               | Some layer_coll =>
                   set_exclude layer_collection layer_coll
                     (NestedCollectionState.was_excluded state)
               | None => layer_collection
               end
           | None => layer_collection
           end) lc states
  = writes write_flag lc (snapshot_writes states).
Proof.
  apply foldl_writes. intros s st.
  destruct (NestedCollectionState.collection st); reflexivity.
Qed.

Lemma override_loop (f : ShapeKeyEntry.t -> Q) obs sks :
  foldl (fun obs shape_key_entry =>
           match resolve_key_block obs (ShapeKeyEntry.model shape_key_entry)
                                   (ShapeKeyEntry.name shape_key_entry) with
           | Some key_block => set_value obs key_block (f shape_key_entry)
           | None => obs
           end) obs sks
  = writes write_weight obs (override_writes f sks).
Proof.
  revert obs. induction sks as [|e sks IH]; intros obs; [reflexivity|].
  simpl. rewrite IH. reflexivity.
Qed.

Lemma store_loop lc colls : forall acc,
  foldl (fun states coll =>
           match find_layer_collection lc (coll_id coll) ≫= node_at lc with
           | Some layer_coll =>
               states ++ [NestedCollectionState.mk (Some coll) (exclude layer_coll)]
           | None => states
           end) acc colls
  = acc ++ snapshot_of lc colls.
Proof.
  induction colls as [|coll colls IH]; intros acc; simpl.
  - rewrite app_nil_r. reflexivity.
  - rewrite IH. unfold snapshot_of. simpl.
    destruct (find_layer_collection lc (coll_id coll) ≫= node_at lc); simpl.
    + rewrite <- app_assoc. reflexivity.
    + reflexivity.
Qed.

(** The helper methods, in closed form. *)

Lemma store_nested_states_eq ctx pos :
  store_nested_states ctx pos
  = match amarillo_outfits ctx !! pos ≫= OutfitEntry.collection with
    | Some collection =>
        update_outfit ctx pos (fun o =>
          OutfitEntry.set_nested_states o
            (snapshot_of (layer_collection ctx)
                         (get_all_nested_collections collection)))
    | None => ctx
    end.
Proof.
  unfold AMARILLO_OT_quick_activate_outfit.store_nested_states.
  destruct (amarillo_outfits ctx !! pos) as [o|]; [|reflexivity]. simpl.
  destruct (OutfitEntry.collection o); [|reflexivity].
  rewrite store_loop. reflexivity.
Qed.

Lemma restore_nested_states_eq ctx pos :
  restore_nested_states ctx pos
  = match amarillo_outfits ctx !! pos with
    | Some o =>
        match OutfitEntry.collection o with
        | Some _ =>
            with_layer_collection ctx
              (writes write_flag (layer_collection ctx)
                      (snapshot_writes (OutfitEntry.nested_states o)))
        | None => ctx
        end
    | None => ctx
    end.
Proof.
  unfold AMARILLO_OT_quick_activate_outfit.restore_nested_states.
  destruct (amarillo_outfits ctx !! pos) as [o|]; [|reflexivity].
  destruct (OutfitEntry.collection o); [|reflexivity].
  rewrite restore_loop. reflexivity.
Qed.

Lemma reset_outfit_shape_keys_eq ctx pos :
  reset_outfit_shape_keys ctx pos
  = match amarillo_outfits ctx !! pos with
    | Some o =>
        with_objects ctx
          (writes write_weight (objects ctx)
                  (override_writes (fun _ => 0%Q) (OutfitEntry.shape_keys o)))
    | None => ctx
    end.
Proof.
  unfold AMARILLO_OT_quick_activate_outfit.reset_outfit_shape_keys.
  destruct (amarillo_outfits ctx !! pos) as [o|]; [|reflexivity].
  rewrite (override_loop (fun _ => 0%Q)). reflexivity.
Qed.

(** Both [execute] methods run [transition] once the indices resolve. *)

Lemma quick_execute_eq outfit_index ctx :
  AMARILLO_OT_quick_activate_outfit.execute outfit_index ctx
  = if len (amarillo_outfits ctx) <=? outfit_index then CANCELLED None ctx
    else
      match (if amarillo_active_outfit_index ctx <? len (amarillo_outfits ctx)
             then Some <$> getitem (amarillo_outfits ctx)
                                   (amarillo_active_outfit_index ctx)
             else Some None) with
      | None => IndexError ctx
      | Some current =>
          match getitem (amarillo_outfits ctx) outfit_index with
          | None => IndexError ctx
          | Some target =>
              FINISHED (with_active_outfit_index (transition current target ctx)
                                                 outfit_index)
          end
      end.
Proof.
  unfold AMARILLO_OT_quick_activate_outfit.execute, transition.
  destruct (len (amarillo_outfits ctx) <=? outfit_index); [reflexivity|].
  destruct (if amarillo_active_outfit_index ctx <? len (amarillo_outfits ctx)
            then _ else _) as [current|]; [|reflexivity].
  destruct (getitem (amarillo_outfits ctx) outfit_index) as [target|]; [|reflexivity].
  cbv zeta. rewrite hide_loop. rewrite (override_loop ShapeKeyEntry.value).
  reflexivity.
Qed.

Lemma activate_execute_eq ctx :
  AMARILLO_OT_activate_outfit.execute ctx
  = match getitem (amarillo_outfits ctx) (amarillo_active_outfit_index ctx) with
    | Some current => FINISHED (transition (Some current) current ctx)
    | None => IndexError ctx
    end.
Proof.
  unfold AMARILLO_OT_activate_outfit.execute, transition.
  destruct (getitem _ _) as [current|]; [|reflexivity].
  change AMARILLO_OT_activate_outfit.find_layer_collection
    with find_layer_collection.
  change AMARILLO_OT_activate_outfit.store_nested_states
    with store_nested_states.
  change AMARILLO_OT_activate_outfit.restore_nested_states
    with restore_nested_states.
  change AMARILLO_OT_activate_outfit.reset_outfit_shape_keys
    with reset_outfit_shape_keys.
  cbv zeta. rewrite hide_loop. rewrite (override_loop ShapeKeyEntry.value).
  reflexivity.
Qed.

(** ** The transition in closed form *)

Lemma getitem_in_bounds {A} (l : list A) i :
  in_bounds l i -> getitem l i = Some (Z.to_nat i).
Proof.
  unfold in_bounds, getitem. intros [H0 H1].
  destruct (Z.ltb_spec i 0); [lia|].
  destruct (Z.leb_spec 0 i); [|lia].
  destruct (Z.ltb_spec i (len l)); [|lia]. reflexivity.
Qed.

Lemma getitem_Some {A} (l : list A) i p :
  getitem l i = Some p -> exists x, l !! p = Some x.
Proof.
  unfold getitem, len. intros H.
  destruct (_ && _) eqn:E; [|discriminate]. injection H as <-.
  apply andb_true_iff in E as [E1 E2].
  apply Z.leb_le in E1. apply Z.ltb_lt in E2.
  apply lookup_lt_is_Some. lia.
Qed.

Lemma in_bounds_lookup {A} (l : list A) i :
  in_bounds l i -> exists x, l !! Z.to_nat i = Some x.
Proof. intros H. apply (getitem_Some l i), getitem_in_bounds, H. Qed.

Lemma find_writes lc ws x :
  find_layer_collection (writes write_flag lc ws) x = find_layer_collection lc x.
Proof.
  revert lc. induction ws as [|w ws IH]; intros lc; [reflexivity|].
  unfold writes in *. simpl. rewrite IH. apply find_write_flag.
Qed.

Lemma outfit_frame_snapshot lc o :
  outfit_frame (snapshot_outfit lc o) = outfit_frame o.
Proof. unfold snapshot_outfit. destruct (OutfitEntry.collection o); reflexivity. Qed.

Lemma outfits_after_frame current ctx :
  outfit_frame <$> outfits_after current ctx = outfit_frame <$> amarillo_outfits ctx.
Proof.
  destruct current as [p|]; [|reflexivity]. simpl.
  apply list_eq. intros j. rewrite !list_lookup_fmap, list_lookup_alter.
  destruct (decide (p = j)) as [->|]; [|reflexivity].
  destruct (amarillo_outfits ctx !! j); [|reflexivity].
  simpl. f_equal. apply outfit_frame_snapshot.
Qed.

Lemma outfits_after_lookup_frame current ctx j o' :
  outfits_after current ctx !! j = Some o' ->
  exists o, amarillo_outfits ctx !! j = Some o /\ outfit_frame o' = outfit_frame o.
Proof.
  intros H. pose proof (outfits_after_frame current ctx) as E.
  apply (f_equal (fun l => l !! j)) in E. rewrite !list_lookup_fmap, H in E.
  destruct (amarillo_outfits ctx !! j) as [o|]; [|discriminate].
  simpl in E. exists o. split; [reflexivity | congruence].
Qed.

Lemma hide_writes_frame l1 l2 :
  outfit_frame <$> l1 = outfit_frame <$> l2 -> hide_writes l1 = hide_writes l2.
Proof.
  revert l2. induction l1 as [|a l1 IH]; intros [|b l2] H; try discriminate; [reflexivity|].
  injection H as _ Hcoll _ _ Hrest. unfold hide_writes in *. simpl.
  rewrite Hcoll. destruct (OutfitEntry.collection b); simpl; [f_equal|];
    apply (IH _ Hrest).
Qed.

Lemma shape_keys_at_after current ctx p :
  shape_keys_at (outfits_after current ctx) p = shape_keys_at (amarillo_outfits ctx) p.
Proof.
  unfold shape_keys_at.
  pose proof (outfits_after_frame current ctx) as E.
  apply (f_equal (fun l => l !! p)) in E. rewrite !list_lookup_fmap in E.
  destruct (outfits_after current ctx !! p) as [o'|],
           (amarillo_outfits ctx !! p) as [o|]; try discriminate; [|reflexivity].
  simpl in *. unfold outfit_frame in E. congruence.
Qed.

Lemma store_nested_states_closed ctx p :
  store_nested_states ctx p = with_outfits ctx (outfits_after (Some p) ctx).
Proof.
  rewrite store_nested_states_eq. unfold outfits_after, update_outfit.
  destruct (amarillo_outfits ctx !! p) as [o|] eqn:Ho; simpl.
  - unfold snapshot_outfit.
    destruct (OutfitEntry.collection o) as [c|] eqn:Hc.
    + f_equal. apply list_eq. intros j. rewrite !list_lookup_alter.
      destruct (decide (p = j)) as [<-|]; [|reflexivity].
      rewrite Ho. simpl. rewrite Hc. reflexivity.
    + destruct ctx; unfold with_outfits; simpl in *. f_equal.
      apply list_eq. intros j. rewrite list_lookup_alter.
      destruct (decide (p = j)) as [<-|]; [|reflexivity].
      rewrite Ho. simpl. rewrite Hc. reflexivity.
  - destruct ctx; unfold with_outfits; simpl in *. f_equal.
    apply list_eq. intros j. rewrite list_lookup_alter.
    destruct (decide (p = j)) as [<-|]; [|reflexivity].
    rewrite Ho. reflexivity.
Qed.

Lemma reset_outfit_shape_keys_closed ctx p :
  reset_outfit_shape_keys ctx p
  = with_objects ctx
      (writes write_weight (objects ctx)
         (override_writes (fun _ => 0%Q) (shape_keys_at (amarillo_outfits ctx) p))).
Proof.
  rewrite reset_outfit_shape_keys_eq. unfold shape_keys_at.
  destruct (amarillo_outfits ctx !! p); [reflexivity|]. destruct ctx; reflexivity.
Qed.

Lemma show_writes_writes lc ws o :
  show_writes (writes write_flag lc ws) o = show_writes lc o.
Proof.
  unfold show_writes. destruct o as [o|]; [|reflexivity].
  destruct (OutfitEntry.collection o); [|reflexivity].
  rewrite find_writes. reflexivity.
Qed.

(** Un-hiding the target and restoring its snapshot. *)
Lemma show_target_closed ctx target :
  match amarillo_outfits ctx !! target ≫= OutfitEntry.collection with
  | Some collection =>
      match find_layer_collection (layer_collection ctx) (coll_id collection) with
      | Some layer_coll =>
          restore_nested_states
            (with_layer_collection ctx
               (set_exclude (layer_collection ctx) layer_coll false))
            target
      | None => ctx
      end
  | None => ctx
  end
  = with_layer_collection ctx
      (writes write_flag (layer_collection ctx)
         (show_writes (layer_collection ctx) (amarillo_outfits ctx !! target))).
Proof.
  unfold show_writes.
  destruct (amarillo_outfits ctx !! target) as [o|] eqn:Ho; simpl;
    [|destruct ctx; reflexivity].
  destruct (OutfitEntry.collection o) as [c|] eqn:Hc; [|destruct ctx; reflexivity].
  destruct (find_layer_collection (layer_collection ctx) (coll_id c)) as [r|] eqn:Hr;
    [|destruct ctx; reflexivity].
  rewrite restore_nested_states_eq. simpl. rewrite Ho, Hc.
  assert (write_flag (layer_collection ctx) (coll_id c) false
          = set_exclude (layer_collection ctx) r false) as ->
    by (unfold write_flag; rewrite Hr; reflexivity).
  destruct ctx; reflexivity.
Qed.

Theorem transition_closed current target ctx :
  transition current target ctx
  = MkContext (outfits_after current ctx)
              (amarillo_active_outfit_index ctx)
              (amarillo_managed_models ctx)
              (amarillo_active_model_index ctx)
              (writes write_flag (layer_collection ctx) (flag_writes current target ctx))
              (writes write_weight (objects ctx) (weight_writes current target ctx)).
Proof.
  unfold transition.
  set (ctx1 := match current with Some p => _ | None => ctx end).
  assert (ctx1 = MkContext (outfits_after current ctx)
                   (amarillo_active_outfit_index ctx) (amarillo_managed_models ctx)
                   (amarillo_active_model_index ctx) (layer_collection ctx)
                   (writes write_weight (objects ctx)
                      match current with
                      | Some p => override_writes (fun _ => 0%Q)
                                    (shape_keys_at (amarillo_outfits ctx) p)
                      | None => []
                      end)) as ->.
  { subst ctx1. destruct current as [p|]; [|destruct ctx; reflexivity].
    rewrite reset_outfit_shape_keys_closed, store_nested_states_closed.
    unfold with_objects, with_outfits. cbn [amarillo_outfits objects].
    rewrite (shape_keys_at_after (Some p)). reflexivity. }
  cbv zeta. rewrite show_target_closed. simpl.
  change (default [] (OutfitEntry.shape_keys <$> outfits_after current ctx !! target))
    with (shape_keys_at (outfits_after current ctx) target).
  rewrite show_writes_writes, shape_keys_at_after.
  unfold flag_writes, weight_writes. rewrite !writes_app. reflexivity.
Qed.

(** ** The two entry points of activation *)

(** C3.  When the selected index designates an outfit, activating the
    selected outfit and quick-activating that index give the same outcome:
    the same status and the same final context (outfits with their
    snapshots, active index, view-layer flags, shape-key weights). *)
Theorem activate_selected_is_quick_activate ctx :
  in_bounds (amarillo_outfits ctx) (amarillo_active_outfit_index ctx) ->
  AMARILLO_OT_activate_outfit.execute ctx
  = AMARILLO_OT_quick_activate_outfit.execute (amarillo_active_outfit_index ctx) ctx.
Proof.
  intros Hb. rewrite activate_execute_eq, quick_execute_eq.
  rewrite (getitem_in_bounds _ _ Hb). destruct Hb as [H0 H1].
  destruct (Z.leb_spec (len (amarillo_outfits ctx)) (amarillo_active_outfit_index ctx));
    [lia|].
  destruct (Z.ltb_spec (amarillo_active_outfit_index ctx) (len (amarillo_outfits ctx)));
    [|lia].
  simpl. rewrite transition_closed. reflexivity.
Qed.

Lemma activate_selected_is_quick_activate_example :
  in_bounds (amarillo_outfits example_scene) (amarillo_active_outfit_index example_scene)
  /\ AMARILLO_OT_activate_outfit.execute example_scene
     = AMARILLO_OT_quick_activate_outfit.execute 0 example_scene.
Proof.
  split.
  - unfold in_bounds, len. simpl. lia.
  - apply (activate_selected_is_quick_activate example_scene).
    unfold in_bounds, len. simpl. lia.
Defined.

(** The guard of quick activation: an index at or past the end cancels
    and leaves the context as it was. *)
Lemma quick_activate_past_end outfit_index ctx :
  len (amarillo_outfits ctx) <= outfit_index ->
  AMARILLO_OT_quick_activate_outfit.execute outfit_index ctx = CANCELLED None ctx.
Proof.
  intros H. rewrite quick_execute_eq.
  destruct (Z.leb_spec (len (amarillo_outfits ctx)) outfit_index); [reflexivity|lia].
Qed.

(** An index that designates an outfit, with an active index that
    designates one too, always finishes. *)
Lemma quick_activate_in_bounds t ctx :
  in_bounds (amarillo_outfits ctx) t ->
  in_bounds (amarillo_outfits ctx) (amarillo_active_outfit_index ctx) ->
  AMARILLO_OT_quick_activate_outfit.execute t ctx
  = FINISHED (with_active_outfit_index
                (transition (Some (Z.to_nat (amarillo_active_outfit_index ctx)))
                            (Z.to_nat t) ctx) t).
Proof.
  intros Ht Ha. rewrite quick_execute_eq.
  rewrite (getitem_in_bounds _ _ Ht), (getitem_in_bounds _ _ Ha).
  destruct Ht, Ha.
  destruct (Z.leb_spec (len (amarillo_outfits ctx)) t); [lia|].
  destruct (Z.ltb_spec (amarillo_active_outfit_index ctx) (len (amarillo_outfits ctx)));
    [|lia].
  reflexivity.
Qed.

(** C4.  Out-of-bounds requests are not all cancelled.  With no outfit in
    the scene the selected-outfit entry point raises [IndexError]; and the
    quick entry point, asked for index [-1], activates the last outfit:
    it hides "Casual", shows "Formal", rewrites the "Smile" and "Frown"
    weights, stores [-1] as the active index and reports [FINISHED]. *)
Theorem out_of_bounds_activation_not_cancelled :
  AMARILLO_OT_activate_outfit.execute empty_scene = IndexError empty_scene
  /\ exists ctx',
       AMARILLO_OT_quick_activate_outfit.execute (-1) example_scene = FINISHED ctx'
       /\ amarillo_active_outfit_index ctx' = -1
       /\ flag (layer_collection ctx') (coll_id casual) = Some true
       /\ flag (layer_collection example_scene) (coll_id casual) = Some false
       /\ flag (layer_collection ctx') (coll_id formal) = Some false
       /\ flag (layer_collection example_scene) (coll_id formal) = Some true
       /\ weight (objects ctx') (Some body, "Frown") = Some 1%Q
       /\ weight (objects example_scene) (Some body, "Frown") = Some 0%Q.
Proof.
  split; [reflexivity|].
  eexists. split; [reflexivity|]. repeat split; vm_compute; reflexivity.
Qed.

(** ** Removing an outfit *)

Lemma remove_nat {A} (l : list A) (i : nat) : remove l (Z.of_nat i) = delete i l.
Proof.
  unfold remove, len.
  destruct (Z.leb_spec 0 (Z.of_nat i)); [|lia].
  destruct (Z.ltb_spec (Z.of_nat i) (Z.of_nat (length l)));
    [simpl; rewrite Nat2Z.id; reflexivity|].
  simpl. symmetry. apply list_eq. intros j.
  rewrite list_lookup_delete. destruct (decide (j < i)%nat); [reflexivity|].
  rewrite !lookup_ge_None_2; [reflexivity|lia|lia].
Qed.

(** With the first outfit selected the operator removes it. *)
Lemma remove_outfit_first ctx o :
  amarillo_active_outfit_index ctx = 0 ->
  amarillo_outfits ctx !! 0%nat = Some o ->
  AMARILLO_OT_remove_outfit.execute ctx
  = FINISHED (with_outfits ctx (delete 0%nat (amarillo_outfits ctx))).
Proof.
  intros Hi Ho. unfold AMARILLO_OT_remove_outfit.execute.
  rewrite Hi. destruct ctx as [outfits idx ms mi lc obs]. simpl in *. subst idx.
  destruct outfits as [|o' rest]; [discriminate|]. reflexivity.
Qed.

(** With any later outfit selected, the operator empties the override
    list of the selected outfit, and then removes the outfit before it. *)
Lemma remove_outfit_later ctx :
  1 <= amarillo_active_outfit_index ctx < len (amarillo_outfits ctx) ->
  AMARILLO_OT_remove_outfit.execute ctx
  = FINISHED
      (MkContext
         (delete (Z.to_nat (amarillo_active_outfit_index ctx - 1))
            (alter (fun o => OutfitEntry.set_shape_keys o [])
                   (Z.to_nat (amarillo_active_outfit_index ctx))
                   (amarillo_outfits ctx)))
         (amarillo_active_outfit_index ctx - 1)
         (amarillo_managed_models ctx) (amarillo_active_model_index ctx)
         (layer_collection ctx) (objects ctx)).
Proof.
  intros Hi. unfold AMARILLO_OT_remove_outfit.execute.
  rewrite getitem_in_bounds by (unfold in_bounds; lia).
  unfold update_outfit, with_outfits, with_active_outfit_index. simpl.
  rewrite Z.max_r by lia.
  rewrite <- (Z2Nat.id (amarillo_active_outfit_index ctx - 1)) at 1 by lia.
  rewrite remove_nat. reflexivity.
Qed.

(** C1.  With "Formal" (index 1) selected, remove-outfit empties the
    override list of "Formal" and then removes "Casual" (index 0):
    "Formal" stays in the sequence without its overrides. *)
Theorem remove_outfit_removes_the_previous_outfit :
  AMARILLO_OT_remove_outfit.execute (with_active_outfit_index example_scene 1)
  = FINISHED (with_outfits example_scene [ OutfitEntry.set_shape_keys formal_outfit [] ]).
Proof. reflexivity. Qed.

(** ** Unregistering a managed model *)

Section Cascade.
Variable object : option ObjId.

Lemma remove_step_shape_keys o i :
  OutfitEntry.shape_keys (AMARILLO_OT_remove_managed_model.remove_step o i)
  = delete i (OutfitEntry.shape_keys o).
Proof.
  unfold AMARILLO_OT_remove_managed_model.remove_step. simpl.
  destruct (_ <=? _); simpl; apply remove_nat.
Qed.

Lemma remove_step_rest o i :
  let o' := AMARILLO_OT_remove_managed_model.remove_step o i in
  OutfitEntry.name o' = OutfitEntry.name o
  /\ OutfitEntry.collection o' = OutfitEntry.collection o
  /\ OutfitEntry.nested_states o' = OutfitEntry.nested_states o.
Proof.
  unfold AMARILLO_OT_remove_managed_model.remove_step. simpl.
  destruct (_ <=? _); simpl; auto.
Qed.

(** The guarded clamp keeps an index that was in range in range. *)
Lemma remove_step_index_ok o i :
  active_index_ok o ->
  active_index_ok (AMARILLO_OT_remove_managed_model.remove_step o i).
Proof.
  unfold active_index_ok, AMARILLO_OT_remove_managed_model.remove_step. simpl.
  intros H. destruct (Z.leb_spec (len (remove (OutfitEntry.shape_keys o) (Z.of_nat i)))
                                 (OutfitEntry.active_shape_key_index o)); simpl; lia.
Qed.

Lemma remove_steps o l :
  let o' := foldl AMARILLO_OT_remove_managed_model.remove_step o l in
  OutfitEntry.shape_keys o'
    = foldl (fun sks i => delete i sks) (OutfitEntry.shape_keys o) l
  /\ OutfitEntry.name o' = OutfitEntry.name o
  /\ OutfitEntry.collection o' = OutfitEntry.collection o
  /\ OutfitEntry.nested_states o' = OutfitEntry.nested_states o
  /\ (active_index_ok o -> active_index_ok o').
Proof.
  revert o. induction l as [|i l IH]; intros o; simpl; [tauto|].
  destruct (IH (AMARILLO_OT_remove_managed_model.remove_step o i))
    as (Hsk & Hn & Hc & Hs & Hok).
  destruct (remove_step_rest o i) as (Hn' & Hc' & Hs').
  split; [|split; [|split; [|split]]].
  - rewrite Hsk, remove_step_shape_keys. reflexivity.
  - congruence.
  - congruence.
  - congruence.
  - intros Hok0. apply Hok, remove_step_index_ok, Hok0.
Qed.

(** Removing the collected positions from the highest to the lowest
    leaves exactly the overrides that do not reference the object, in
    their order. *)
Lemma delete_matching sks : forall pre,
  foldl (fun l i => delete i l) (pre ++ sks)
        (reverse (AMARILLO_OT_remove_managed_model.to_remove_from
                    (length pre) sks object))
  = pre ++ kept_overrides object sks.
Proof.
  induction sks as [|sk rest IH]; intros pre; [reflexivity|].
  specialize (IH (pre ++ [sk])).
  rewrite length_app, Nat.add_1_r, <- app_assoc in IH. simpl in IH.
  unfold kept_overrides in *. simpl.
  destruct (decide (ShapeKeyEntry.model sk = object)) as [E|E].
  - rewrite bool_decide_eq_true_2 by exact E.
    rewrite reverse_cons, foldl_app, IH. simpl.
    rewrite filter_cons_False by (intros H; apply H, E).
    rewrite <- app_assoc. simpl.
    rewrite delete_take_drop, take_app_length. f_equal.
    replace (S (length pre)) with (length pre + 1)%nat by lia.
    rewrite drop_app_add. reflexivity.
  - rewrite bool_decide_eq_false_2 by exact E.
    rewrite IH, filter_cons_True by exact E.
    rewrite <- app_assoc. reflexivity.
Qed.

Lemma to_remove_from_none sks : forall i,
  (forall sk, sk ∈ sks -> ShapeKeyEntry.model sk <> object) ->
  AMARILLO_OT_remove_managed_model.to_remove_from i sks object = [].
Proof.
  induction sks as [|sk rest IH]; intros i H; [reflexivity|]. simpl.
  rewrite bool_decide_eq_false_2 by (apply H; by left).
  apply IH. intros sk' Hin. apply H. by right.
Qed.

Lemma cascade_spec o :
  let o' := AMARILLO_OT_remove_managed_model.cascade object o in
  OutfitEntry.shape_keys o' = kept_overrides object (OutfitEntry.shape_keys o)
  /\ OutfitEntry.name o' = OutfitEntry.name o
  /\ OutfitEntry.collection o' = OutfitEntry.collection o
  /\ OutfitEntry.nested_states o' = OutfitEntry.nested_states o
  /\ (active_index_ok o -> active_index_ok o')
  /\ ((forall sk, sk ∈ OutfitEntry.shape_keys o -> ShapeKeyEntry.model sk <> object)
      -> o' = o).
Proof.
  unfold AMARILLO_OT_remove_managed_model.cascade,
         AMARILLO_OT_remove_managed_model.to_remove.
  destruct (remove_steps o
              (reverse (AMARILLO_OT_remove_managed_model.to_remove_from 0
                          (OutfitEntry.shape_keys o) object)))
    as (Hsk & Hn & Hc & Hs & Hok).
  split; [|split; [|split; [|split; [|split]]]]; try assumption.
  - rewrite Hsk. apply (delete_matching (OutfitEntry.shape_keys o) []).
  - intros Hnone. rewrite to_remove_from_none by exact Hnone. reflexivity.
Qed.
End Cascade.

(** C2, as the code has it.  Unregistering the model at a valid index
    succeeds; in every outfit it removes exactly the overrides whose model
    equals the removed object and keeps the others in order; an active
    override index that was in range beforehand is in range afterwards;
    and an outfit that references the object nowhere is left untouched,
    index included. *)
Theorem remove_managed_model_cascade ctx :
  in_bounds (amarillo_managed_models ctx) (amarillo_active_model_index ctx) ->
  exists model ctx',
    amarillo_managed_models ctx !! Z.to_nat (amarillo_active_model_index ctx)
      = Some model
    /\ AMARILLO_OT_remove_managed_model.execute ctx = FINISHED ctx'
    /\ amarillo_managed_models ctx'
       = delete (Z.to_nat (amarillo_active_model_index ctx)) (amarillo_managed_models ctx)
    /\ length (amarillo_outfits ctx') = length (amarillo_outfits ctx)
    /\ forall j o, amarillo_outfits ctx !! j = Some o ->
         exists o', amarillo_outfits ctx' !! j = Some o'
           /\ OutfitEntry.shape_keys o'
              = kept_overrides (ManagedModelEntry.object model) (OutfitEntry.shape_keys o)
           /\ OutfitEntry.name o' = OutfitEntry.name o
           /\ OutfitEntry.collection o' = OutfitEntry.collection o
           /\ OutfitEntry.nested_states o' = OutfitEntry.nested_states o
           /\ (active_index_ok o -> active_index_ok o')
           /\ ((forall sk, sk ∈ OutfitEntry.shape_keys o ->
                  ShapeKeyEntry.model sk <> ManagedModelEntry.object model)
               -> o' = o).
Proof.
  intros Hb. destruct (in_bounds_lookup _ _ Hb) as [model Hm].
  exists model. eexists. split; [exact Hm|].
  unfold AMARILLO_OT_remove_managed_model.execute. destruct Hb as [H0 H1].
  destruct (Z.leb_spec 0 (amarillo_active_model_index ctx)); [|lia].
  destruct (Z.ltb_spec (amarillo_active_model_index ctx)
                       (len (amarillo_managed_models ctx))); [|lia].
  simpl. rewrite Hm. split; [reflexivity|]. simpl.
  split.
  { rewrite <- (Z2Nat.id (amarillo_active_model_index ctx)) at 1 by lia.
    apply remove_nat. }
  split; [apply length_fmap|].
  intros j o Ho. eexists. rewrite list_lookup_fmap, Ho. split; [reflexivity|].
  apply cascade_spec.
Qed.

Lemma remove_managed_model_cascade_example :
  in_bounds (amarillo_managed_models example_scene)
            (amarillo_active_model_index example_scene)
  /\ exists ctx',
       AMARILLO_OT_remove_managed_model.execute example_scene = FINISHED ctx'
       /\ OutfitEntry.shape_keys <$> amarillo_outfits ctx' = [ []; [] ].
Proof.
  assert (in_bounds (amarillo_managed_models example_scene)
                    (amarillo_active_model_index example_scene)) as Hb
    by (unfold in_bounds, len; simpl; lia).
  split; [exact Hb|].
  destruct (remove_managed_model_cascade example_scene Hb)
    as (model & ctx' & _ & Hrun & _).
  exists ctx'. split; [exact Hrun|].
  vm_compute in Hrun. injection Hrun as <-. reflexivity.
Defined.

(** A stale index needs no outside help: remove-outfit empties the
    override list of the selected outfit without touching its active
    override index, and leaves that outfit in the sequence. *)
Lemma stale_index_reachable :
  (forall o, o ∈ amarillo_outfits four_override_scene -> active_index_ok o)
  /\ exists ctx1 ctx2,
       AMARILLO_OT_remove_outfit.execute four_override_scene = FINISHED ctx1
       /\ AMARILLO_OT_remove_managed_model.execute ctx1 = FINISHED ctx2
       /\ OutfitEntry.shape_keys <$> amarillo_outfits ctx2 = [ [] ]
       /\ OutfitEntry.active_shape_key_index <$> amarillo_outfits ctx2 = [ 3 ].
Proof.
  split.
  - intros o Ho. unfold four_override_scene in Ho. simpl in Ho.
    apply elem_of_cons in Ho as [->|Ho];
      [|apply list_elem_of_singleton in Ho as ->];
      unfold active_index_ok, len; simpl; lia.
  - do 2 eexists. split; [reflexivity|]. split; [reflexivity|].
    split; reflexivity.
Qed.

(** The claim as stated fails: unregistering the hat from
    [stale_index_scene] removes no override of "Casual" and so never
    reaches the clamp; its active override index stays at 3 with a single
    override in the list. *)
Lemma remove_managed_model_keeps_stale_index :
  in_bounds (amarillo_managed_models stale_index_scene)
            (amarillo_active_model_index stale_index_scene)
  /\ ~ (forall o,
          o ∈ amarillo_outfits
                (final_context
                   (AMARILLO_OT_remove_managed_model.execute stale_index_scene)) ->
          active_index_ok o).
Proof.
  split; [unfold in_bounds, len; simpl; lia|].
  intros H.
  specialize (H (OutfitEntry.set_active_shape_key_index casual_outfit 3)).
  unfold active_index_ok in H. vm_compute in H.
  destruct H as [_ H]; [by left|]. apply H. reflexivity.
Qed.

(** ** Adding a shape-key override *)




(** ** Snapshot and restore *)

Lemma snapshot_writes_snapshot_of lc colls :
  snapshot_writes (snapshot_of lc colls)
  = omap (fun coll => (fun b => (coll_id coll, b)) <$> flag lc (coll_id coll)) colls.
Proof.
  unfold snapshot_writes, snapshot_of, flag.
  induction colls as [|coll colls IH]; [reflexivity|]. simpl.
  destruct (find_layer_collection lc (coll_id coll) ≫= node_at lc) as [node|]; simpl;
    [f_equal|]; exact IH.
Qed.

(** Every entry of a fresh snapshot records the flag its collection has. *)
Lemma snapshot_of_records lc colls w :
  w ∈ snapshot_writes (snapshot_of lc colls) -> flag lc w.1 = Some w.2.
Proof.
  rewrite snapshot_writes_snapshot_of, list_elem_of_omap.
  intros (coll & _ & H). destruct (flag lc (coll_id coll)) as [b|] eqn:E; [|discriminate].
  injection H as <-. exact E.
Qed.

(** Every resolving collection of the list has an entry. *)
Lemma snapshot_of_covers lc colls d b :
  d ∈ colls -> flag lc (coll_id d) = Some b ->
  (coll_id d, b) ∈ snapshot_writes (snapshot_of lc colls).
Proof.
  intros Hd Hb. rewrite snapshot_writes_snapshot_of, list_elem_of_omap.
  exists d. rewrite Hb. auto.
Qed.






(** ** What an activation leaves alone *)

Lemma layer_frame_unfold c e children :
  layer_frame (MkLayerCollection c e children)
  = MkLayerCollection c false (layer_frame <$> children).
Proof.
  reflexivity.
Qed.

Lemma layer_frame_set_exclude p : forall lc v,
  layer_frame (set_exclude lc p v) = layer_frame lc.
Proof.
  induction p as [|i q IH]; intros [c e children] v; [reflexivity|].
  simpl set_exclude. destruct (children !! i) as [child|] eqn:Hi; [|reflexivity].
  rewrite !layer_frame_unfold. f_equal.
  rewrite list_fmap_insert, IH. apply list_insert_id.
  rewrite list_lookup_fmap, Hi. reflexivity.
Qed.

Lemma layer_frame_writes ws : forall lc,
  layer_frame (writes write_flag lc ws) = layer_frame lc.
Proof.
  induction ws as [|w ws IH]; intros lc; [reflexivity|].
  unfold writes in *. simpl. rewrite IH. unfold write_flag.
  destruct (find_layer_collection lc w.1); [apply layer_frame_set_exclude|reflexivity].
Qed.

Lemma object_frame_set_value obs r v :
  object_frame <$> set_value obs r v = object_frame <$> obs.
Proof.
  apply map_eq. intros o. unfold set_value.
  rewrite !lookup_fmap, lookup_alter.
  destruct (decide (r.1 = o)) as [->|]; [|reflexivity].
  destruct (obs !! o) as [ob|]; [|reflexivity]. simpl. f_equal.
  unfold object_frame. simpl. f_equal.
  destruct (Object.shape_keys ob) as [blocks|]; [|reflexivity]. simpl. f_equal.
  apply list_eq. intros j. rewrite !list_lookup_fmap, list_lookup_alter.
  destruct (decide (r.2 = j)) as [->|]; [|reflexivity].
  destruct (blocks !! j); reflexivity.
Qed.

Lemma object_frame_writes ws : forall obs,
  object_frame <$> writes write_weight obs ws = object_frame <$> obs.
Proof.
  induction ws as [|w ws IH]; intros obs; [reflexivity|].
  unfold writes in *. simpl. rewrite IH. unfold write_weight.
  destruct (resolve_key_block obs w.1.1 w.1.2);
    [apply object_frame_set_value|reflexivity].
Qed.

Lemma activation_frame_refl previous ctx : activation_frame previous ctx ctx.
Proof. unfold activation_frame. auto 7. Qed.

Lemma transition_frame current target ctx :
  activation_frame current ctx (transition current target ctx).
Proof.
  rewrite transition_closed. unfold activation_frame. simpl.
  split; [apply outfits_after_frame|].
  split.
  { intros j Hj. destruct current as [p|]; [|reflexivity]. simpl.
    apply list_lookup_alter_ne. congruence. }
  split; [reflexivity|]. split; [reflexivity|].
  split; [apply layer_frame_writes | apply object_frame_writes].
Qed.

(** C10.  Whatever the outcome, an activation through either entry point
    keeps the number, order, names, bound collections, override lists and
    active override indices of the outfits, every field of every outfit
    other than the previously active one, the model registry and its
    index, the shape of the view-layer tree (only exclusion flags may
    differ) and the key tables of the objects (only weights may differ). *)
Theorem activation_preserves_frame outfit_index ctx :
  let previous :=
    getitem (amarillo_outfits ctx) (amarillo_active_outfit_index ctx) in
  activation_frame previous ctx
    (final_context (AMARILLO_OT_quick_activate_outfit.execute outfit_index ctx))
  /\ activation_frame previous ctx
       (final_context (AMARILLO_OT_activate_outfit.execute ctx)).
Proof.
  intros previous. subst previous. split.
  - rewrite quick_execute_eq.
    destruct (_ <=? _); [apply activation_frame_refl|].
    destruct (Z.ltb_spec (amarillo_active_outfit_index ctx) (len (amarillo_outfits ctx)))
      as [Hlt|Hge].
    + destruct (getitem (amarillo_outfits ctx) (amarillo_active_outfit_index ctx))
        as [cur|]; simpl; [|apply activation_frame_refl].
      destruct (getitem (amarillo_outfits ctx) outfit_index) as [tgt|]; simpl;
        [|apply activation_frame_refl].
      apply (transition_frame (Some cur) tgt ctx).
    + assert (getitem (amarillo_outfits ctx) (amarillo_active_outfit_index ctx) = None)
        as ->.
      { unfold getitem. pose proof (Zle_0_nat (length (amarillo_outfits ctx))).
        unfold len in *.
        destruct (Z.ltb_spec (amarillo_active_outfit_index ctx) 0); [lia|].
        destruct (Z.ltb_spec (amarillo_active_outfit_index ctx)
                             (Z.of_nat (length (amarillo_outfits ctx)))); [lia|].
        rewrite andb_false_r. reflexivity. }
      destruct (getitem (amarillo_outfits ctx) outfit_index) as [tgt|]; simpl;
        [|apply activation_frame_refl].
      apply (transition_frame None tgt ctx).
  - rewrite activate_execute_eq.
    destruct (getitem (amarillo_outfits ctx) (amarillo_active_outfit_index ctx))
      as [cur|]; simpl; [|apply activation_frame_refl].
    apply (transition_frame (Some cur) cur ctx).
Qed.

(** ** Visibility after a transition *)

Lemma last_write_None_iff {K V} `{EqDecision K} (ws : list (K * V)) k :
  last_write ws k = None <-> k ∉ ws.*1.
Proof.
  split.
  - intros E Hin. apply list_elem_of_fmap in Hin as ([k' v] & -> & Hin).
    destruct (last_write_is_Some _ _ _ Hin) as [v' E']. simpl in *. congruence.
  - intros Hk. apply last_write_None. intros v Hin. apply Hk.
    apply list_elem_of_fmap. exists (k, v). auto.
Qed.




(** The flag of a collection after a transition. *)
Lemma flag_after_transition current target ctx x :
  flag (layer_collection (transition current target ctx)) x
  = match last_write (flag_writes current target ctx) x with
    | Some v => (fun _ => v) <$> flag (layer_collection ctx) x
    | None => flag (layer_collection ctx) x
    end.
Proof.
  rewrite transition_closed. simpl.
  apply (read_writes flag write_flag flag_write_flag).
Qed.


Lemma flag_writes_final current target ctx :
  flag_writes current target ctx
  = hide_writes (amarillo_outfits (transition current target ctx))
    ++ show_writes (layer_collection (transition current target ctx))
                   (amarillo_outfits (transition current target ctx) !! target).
Proof.
  rewrite transition_closed. simpl. rewrite show_writes_writes. reflexivity.
Qed.

Lemma quick_execute_FINISHED t ctx ctx' :
  AMARILLO_OT_quick_activate_outfit.execute t ctx = FINISHED ctx' ->
  exists current target,
    getitem (amarillo_outfits ctx) t = Some target
    /\ ctx' = with_active_outfit_index (transition current target ctx) t.
Proof.
  rewrite quick_execute_eq. destruct (_ <=? _); [discriminate|].
  destruct (if _ <? _ then _ else _) as [current|]; [|discriminate].
  destruct (getitem (amarillo_outfits ctx) t) as [target|]; [|discriminate].
  intros [= <-]. eauto.
Qed.




(** ** Switching to another outfit and back *)



Lemma weight_after_transition current target ctx k :
  weight (objects (transition current target ctx)) k
  = match last_write (weight_writes current target ctx) k with
    | Some v => (fun _ => v) <$> weight (objects ctx) k
    | None => weight (objects ctx) k
    end.
Proof.
  rewrite transition_closed. simpl.
  apply (read_writes weight write_weight weight_write_weight).
Qed.


Lemma transition_outfits current target ctx :
  amarillo_outfits (transition current target ctx) = outfits_after current ctx.
Proof. rewrite transition_closed. reflexivity. Qed.

Lemma outfits_after_length current ctx :
  length (outfits_after current ctx) = length (amarillo_outfits ctx).
Proof.
  pose proof (outfits_after_frame current ctx) as E.
  apply (f_equal length) in E. rewrite !length_fmap in E. exact E.
Qed.

Lemma snapshot_outfit_collection lc o :
  OutfitEntry.collection (snapshot_outfit lc o) = OutfitEntry.collection o.
Proof.
  unfold snapshot_outfit.
  destruct (OutfitEntry.collection o) eqn:E; simpl; exact E.
Qed.

Lemma snapshot_outfit_nested_states lc o c :
  OutfitEntry.collection o = Some c ->
  OutfitEntry.nested_states (snapshot_outfit lc o)
  = snapshot_of lc (get_all_nested_collections c).
Proof. unfold snapshot_outfit. intros ->. reflexivity. Qed.





(** ** Activating the active outfit again *)

Lemma getitem_length {A B} (l1 : list A) (l2 : list B) i :
  length l1 = length l2 -> getitem l1 i = getitem l2 i.
Proof. unfold getitem, len. intros ->. reflexivity. Qed.




(** Quick activation may come from another outfit; it then restores the
    snapshot the target already carries.  Activating the target again is
    without effect on flags and weights provided that snapshot names only
    descendants of the target's bound collection, as every snapshot does
    when it is taken. *)

Lemma override_writes_names f sks :
  (override_writes f sks).*1 = override_addr <$> sks.
Proof.
  unfold override_writes. rewrite <- list_fmap_compose. reflexivity.
Qed.

Lemma quick_activation_idempotent t ctx ctx1 :
  in_bounds (amarillo_outfits ctx) t ->
  AMARILLO_OT_quick_activate_outfit.execute t ctx = FINISHED ctx1 ->
  (forall T c x,
     amarillo_outfits ctx1 !! Z.to_nat t = Some T ->
     OutfitEntry.collection T = Some c ->
     x ∈ (snapshot_writes (OutfitEntry.nested_states T)).*1 ->
     exists d, d ∈ get_all_nested_collections c /\ coll_id d = x) ->
  exists ctx2,
    AMARILLO_OT_quick_activate_outfit.execute t ctx1 = FINISHED ctx2
    /\ (forall c, flag (layer_collection ctx2) c = flag (layer_collection ctx1) c)
    /\ (forall k, weight (objects ctx2) k = weight (objects ctx1) k).
Proof.
  intros Hb Hrun Hfresh.
  destruct (quick_execute_FINISHED _ _ _ Hrun) as (current & p & Hget & ->).
  rewrite (getitem_in_bounds _ _ Hb) in Hget. injection Hget as Hp.
  rewrite Hp in Hfresh.
  set (t1 := transition current p ctx) in *.
  set (ctx1 := with_active_outfit_index t1 t) in *.
  assert (amarillo_outfits ctx1 = outfits_after current ctx) as Houtfits
    by apply transition_outfits.
  assert (in_bounds (amarillo_outfits ctx1) t) as Hb1.
  { unfold in_bounds, len in *. rewrite Houtfits, outfits_after_length. exact Hb. }
  destruct (in_bounds_lookup _ _ Hb1) as [T1 HT1]. rewrite Hp in HT1.
  exists (with_active_outfit_index (transition (Some p) p ctx1) t).
  split; [|split].
  - rewrite (quick_activate_in_bounds t ctx1 Hb1 Hb1). simpl. rewrite Hp. reflexivity.
  - intros x.
    change (layer_collection (with_active_outfit_index (transition (Some p) p ctx1) t))
      with (layer_collection (transition (Some p) p ctx1)).
    rewrite flag_after_transition.
    destruct (flag (layer_collection ctx1) x) as [b1|] eqn:Eb1;
      [|destruct (last_write _ _); reflexivity].
    destruct (last_write (flag_writes (Some p) p ctx1) x) as [v|] eqn:Ev; [|reflexivity].
    simpl. f_equal.
    (* what the first activation assigned *)
    assert (forall v', last_write (flag_writes current p ctx) x = Some v' -> b1 = v')
      as Hfirst.
    { intros v' Ev'. change (layer_collection ctx1) with (layer_collection t1) in Eb1.
      subst t1. rewrite flag_after_transition, Ev' in Eb1.
      destruct (flag (layer_collection ctx) x); simpl in Eb1; congruence. }
    rewrite flag_writes_final in Hfirst. fold t1 in Hfirst.
    change (amarillo_outfits t1) with (amarillo_outfits ctx1) in Hfirst.
    change (layer_collection t1) with (layer_collection ctx1) in Hfirst.
    rewrite HT1 in Hfirst.
    (* what the second activation assigns *)
    unfold flag_writes in Ev.
    rewrite (hide_writes_frame _ (amarillo_outfits ctx1)) in Ev
      by apply outfits_after_frame.
    unfold outfits_after in Ev. rewrite list_lookup_alter_eq, HT1 in Ev.
    cbn [fmap option_fmap option_map] in Ev.
    rewrite last_write_app in Ev, Hfirst.
    unfold show_writes in Ev, Hfirst. rewrite snapshot_outfit_collection in Ev.
    destruct (OutfitEntry.collection T1) as [c|] eqn:Hc;
      [|symmetry; apply Hfirst; exact Ev].
    destruct (find_layer_collection (layer_collection ctx1) (coll_id c)) as [r|];
      [|symmetry; apply Hfirst; exact Ev].
    rewrite (snapshot_outfit_nested_states _ _ c Hc) in Ev.
    cbn [last_write fst] in Ev, Hfirst.
    destruct (last_write
                (snapshot_writes
                   (snapshot_of (layer_collection ctx1) (get_all_nested_collections c)))
                x) as [v2|] eqn:E2.
    + injection Ev as <-. apply last_write_elem, snapshot_of_records in E2.
      cbn [fst snd] in E2. congruence.
    + assert (last_write (snapshot_writes (OutfitEntry.nested_states T1)) x = None) as E1.
      { apply last_write_None_iff. intros Hin.
        destruct (Hfresh T1 c x HT1 Hc Hin) as (d & Hd & <-).
        apply last_write_None_iff in E2. apply E2.
        apply list_elem_of_fmap. exists (coll_id d, b1).
        split; [reflexivity|]. apply snapshot_of_covers; assumption. }
      rewrite E1 in Hfirst. symmetry. apply Hfirst. exact Ev.
  - intros k.
    change (objects (with_active_outfit_index (transition (Some p) p ctx1) t))
      with (objects (transition (Some p) p ctx1)).
    rewrite weight_after_transition.
    change (objects ctx1) with (objects t1). subst t1.
    rewrite weight_after_transition.
    unfold weight_writes. rewrite !last_write_app.
    rewrite Houtfits, !shape_keys_at_after.
    destruct (last_write (override_writes ShapeKeyEntry.value
                            (shape_keys_at (amarillo_outfits ctx) p)) k) as [v|] eqn:Ev.
    + destruct (weight (objects ctx) k); reflexivity.
    + assert (last_write (override_writes (fun _ => 0%Q)
                            (shape_keys_at (amarillo_outfits ctx) p)) k = None) as ->.
      { apply last_write_None_iff. apply last_write_None_iff in Ev.
        rewrite override_writes_names in *. exact Ev. }
      reflexivity.
Qed.

(** The proviso is needed.  In [rebound_scene] the first outfit still
    carries the snapshot taken under its former binding, which names
    "Formal".  Quick-activating it restores that entry and shows "Formal";
    quick-activating it again takes a fresh snapshot, which no longer
    names "Formal", and the hide-all pass excludes it. *)
Lemma quick_activation_drift_after_rebinding :
  let ctx1 := final_context
                (AMARILLO_OT_quick_activate_outfit.execute 0 rebound_scene) in
  let ctx2 := final_context (AMARILLO_OT_quick_activate_outfit.execute 0 ctx1) in
  AMARILLO_OT_quick_activate_outfit.execute 0 rebound_scene = FINISHED ctx1
  /\ AMARILLO_OT_quick_activate_outfit.execute 0 ctx1 = FINISHED ctx2
  /\ OutfitEntry.name <$> amarillo_outfits ctx1 = [ "Casual"; "Formal" ]
  /\ flag (layer_collection ctx1) (coll_id formal) = Some false
  /\ flag (layer_collection ctx2) (coll_id formal) = Some true.
Proof. repeat split; reflexivity. Qed.

(** * Further properties of the operators and their helpers *)

(** ** The search in the view-layer tree *)

Lemma layer_ids_unfold c e children :
  layer_ids (MkLayerCollection c e children) = c :: (children ≫= layer_ids).
Proof. reflexivity. Qed.

Lemma find_in_children_None x children : forall i,
  find_in_children x i children = None
  <-> forall child, child ∈ children -> find_layer_collection child x = None.
Proof.
  induction children as [|c0 rest IH]; intros i; simpl.
  - split; [intros _ child Hin; by apply elem_of_nil in Hin | reflexivity].
  - destruct (find_layer_collection c0 x) as [p|] eqn:E.
    + split; [discriminate|]. intros H. specialize (H c0). rewrite E in H.
      discriminate H. by left.
    + rewrite IH. split.
      * intros H child Hin. apply elem_of_cons in Hin as [->|Hin]; auto.
      * intros H child Hin. apply H. by right.
Qed.

Lemma find_layer_collection_None lc : forall x,
  find_layer_collection lc x = None <-> x ∉ layer_ids lc.
Proof.
  induction lc as [c e children IH] using LayerCollection_tree_ind; intros x.
  rewrite find_layer_collection_unfold, layer_ids_unfold, not_elem_of_cons.
  rewrite Forall_forall in IH.
  destruct (Pos.eqb_spec c x) as [->|Hne].
  - split; [discriminate | intros [H _]; congruence].
  - rewrite find_in_children_None. split.
    + intros H. split; [congruence|]. intros Hin.
      apply list_elem_of_bind in Hin as (child & Hx & Hchild).
      apply (IH child Hchild x); auto.
    + intros [_ H] child Hchild. apply (IH child Hchild x). intros Hx.
      apply H. apply list_elem_of_bind. eauto.
Qed.

(** X1.  The search finds a node exactly when some node of the tree points to
    the collection; the node it finds points to the collection; and the
    three classes that define the search define the same search. *)
Theorem find_layer_collection_finds lc c :
  (is_Some (find_layer_collection lc c) <-> c ∈ layer_ids lc)
  /\ (forall p, find_layer_collection lc c = Some p ->
        exists n, node_at lc p = Some n /\ lc_collection n = c)
  /\ AMARILLO_OT_activate_outfit.find_layer_collection lc c
     = AMARILLO_OT_quick_activate_outfit.find_layer_collection lc c
  /\ AMARILLO_OT_add_outfit.find_layer_collection lc c
     = AMARILLO_OT_quick_activate_outfit.find_layer_collection lc c.
Proof.
  split; [|split; [|split; reflexivity]].
  - pose proof (find_layer_collection_None lc c) as H.
    destruct (find_layer_collection lc c) as [p|].
    + split; [|eauto]. intros _. destruct (decide (c ∈ layer_ids lc)); [done|].
      apply H in n. discriminate.
    + split; [intros [? [=]]|]. intros Hin. exfalso. by apply (proj1 H).
  - apply find_layer_collection_node.
Qed.

(** ** The descendants of a collection *)

Lemma get_all_nested_collections_unfold i n children :
  get_all_nested_collections (MkCollection i n children) = nested_loop [] children.
Proof. reflexivity. Qed.

Lemma nested_loop_app children : forall result,
  nested_loop result children
  = result ++ (children ≫= fun c => c :: get_all_nested_collections c).
Proof.
  induction children as [|c rest IH]; intros result; simpl.
  - rewrite app_nil_r. reflexivity.
  - change ((fix loop (result0 children0 : list Collection) : list Collection :=
               match children0 with
               | [] => result0
               | child :: rest0 =>
                   loop (result0 ++ child :: get_all_nested_collections child) rest0
               end) (result ++ c :: get_all_nested_collections c) rest)
      with (nested_loop (result ++ c :: get_all_nested_collections c) rest).
    rewrite IH, <- app_assoc. reflexivity.
Qed.

Lemma Collection_tree_ind (P : Collection -> Prop) :
  (forall i n children, Forall P children -> P (MkCollection i n children)) ->
  forall c, P c.
Proof.
  intros step. fix IH 1. intros [i n children]. apply step.
  induction children as [|child rest IHrest]; constructor; [apply IH | exact IHrest].
Qed.

(** X2.  The descendants are listed in pre-order, every child followed by its
    own descendants; the collection itself is not listed, so the list has
    one entry less than the tree has collections. *)
Theorem get_all_nested_collections_preorder c :
  get_all_nested_collections c
  = coll_children c ≫= (fun child => child :: get_all_nested_collections child)
  /\ S (length (get_all_nested_collections c)) = collection_size c
  /\ AMARILLO_OT_activate_outfit.get_all_nested_collections c
     = get_all_nested_collections c.
Proof.
  split; [|split; [|reflexivity]].
  - destruct c as [i n children]. rewrite get_all_nested_collections_unfold.
    apply (nested_loop_app children []).
  - induction c as [i n children IH] using Collection_tree_ind.
    rewrite get_all_nested_collections_unfold, (nested_loop_app children []).
    simpl. f_equal.
    induction children as [|c rest IHrest]; [reflexivity|].
    apply Forall_cons in IH as [Hc Hrest].
    rewrite bind_cons, length_app. simpl. rewrite (IHrest Hrest), <- Hc.
    simpl. reflexivity.
Qed.

(** ** Taking and restoring a snapshot *)

Lemma snapshot_outfit_twice lc lc' o :
  snapshot_outfit lc (snapshot_outfit lc' o) = snapshot_outfit lc o.
Proof.
  unfold snapshot_outfit.
  destruct (OutfitEntry.collection o) eqn:E; simpl; rewrite E; reflexivity.
Qed.

(** X3.  Storing the nested states of an outfit with a bound collection
    replaces its snapshot: afterwards the snapshot has an entry for every
    descendant that resolves, each recording the flag the descendant has,
    and no other entry.  Nothing else changes, and storing again is
    without effect. *)
Theorem store_nested_states_snapshot ctx pos o c :
  amarillo_outfits ctx !! pos = Some o ->
  OutfitEntry.collection o = Some c ->
  let ctx' := AMARILLO_OT_quick_activate_outfit.store_nested_states ctx pos in
  exists o',
    amarillo_outfits ctx' !! pos = Some o'
    /\ (forall st, st ∈ OutfitEntry.nested_states o' ->
          exists d, d ∈ get_all_nested_collections c
                    /\ NestedCollectionState.collection st = Some d
                    /\ flag (layer_collection ctx) (coll_id d)
                       = Some (NestedCollectionState.was_excluded st))
    /\ (forall d b, d ∈ get_all_nested_collections c ->
          flag (layer_collection ctx) (coll_id d) = Some b ->
          NestedCollectionState.mk (Some d) b ∈ OutfitEntry.nested_states o')
    /\ outfit_frame o' = outfit_frame o
    /\ (forall j, j <> pos -> amarillo_outfits ctx' !! j = amarillo_outfits ctx !! j)
    /\ layer_collection ctx' = layer_collection ctx
    /\ objects ctx' = objects ctx
    /\ AMARILLO_OT_quick_activate_outfit.store_nested_states ctx' pos = ctx'.
Proof.
  intros Ho Hc ctx'. subst ctx'. rewrite store_nested_states_closed.
  exists (snapshot_outfit (layer_collection ctx) o).
  unfold with_outfits, outfits_after. cbn [amarillo_outfits layer_collection objects].
  split; [rewrite list_lookup_alter_eq, Ho; reflexivity|].
  rewrite (snapshot_outfit_nested_states _ _ c Hc).
  split; [|split; [|split; [|split; [|split; [|split]]]]].
  - intros st Hst. unfold snapshot_of in Hst.
    apply list_elem_of_omap in Hst as (d & Hd & Hst). exists d.
    unfold flag.
    destruct (find_layer_collection (layer_collection ctx) (coll_id d)
                ≫= node_at (layer_collection ctx)) as [node|]; [|discriminate].
    simpl in Hst. injection Hst as <-. auto.
  - intros d b Hd Hb. unfold snapshot_of. apply list_elem_of_omap. exists d.
    split; [exact Hd|]. unfold flag in Hb.
    destruct (find_layer_collection (layer_collection ctx) (coll_id d)
                ≫= node_at (layer_collection ctx)) as [node|]; [|discriminate].
    simpl in *. injection Hb as <-. reflexivity.
  - apply outfit_frame_snapshot.
  - intros j Hj. apply list_lookup_alter_ne. congruence.
  - reflexivity.
  - reflexivity.
  - rewrite store_nested_states_closed.
    unfold with_outfits, outfits_after. cbn [amarillo_outfits layer_collection objects
      amarillo_active_outfit_index amarillo_managed_models amarillo_active_model_index].
    f_equal. apply list_eq. intros j. rewrite !list_lookup_alter.
    destruct (decide (pos = j)) as [<-|]; [|reflexivity].
    rewrite Ho, decide_True by reflexivity.
    cbn [fmap option_fmap option_map]. f_equal.
    apply snapshot_outfit_twice.
Qed.

Lemma store_nested_states_snapshot_example :
  amarillo_outfits example_scene !! 0%nat = Some casual_outfit
  /\ OutfitEntry.collection casual_outfit = Some casual
  /\ OutfitEntry.nested_states
       <$> amarillo_outfits
             (AMARILLO_OT_quick_activate_outfit.store_nested_states example_scene 0)
             !! 0%nat
     = Some [ NestedCollectionState.mk (Some shoes) false ].
Proof.
  split; [reflexivity|]. split; [reflexivity|].
  destruct (store_nested_states_snapshot example_scene 0%nat casual_outfit casual
              eq_refl eq_refl) as (o' & Ho' & _).
  rewrite Ho'. vm_compute in Ho'. injection Ho' as <-. reflexivity.
Defined.



(** ** Weights and flags after a quick activation *)






(** X7.  With the active index at or past the end there is no previous outfit:
    quick activation of an in-bounds target still finishes, takes no
    snapshot (the outfit sequence is unchanged) and resets no weight: a
    live key no override of the target names keeps its weight. *)
Theorem quick_activate_without_previous t ctx :
  in_bounds (amarillo_outfits ctx) t ->
  len (amarillo_outfits ctx) <= amarillo_active_outfit_index ctx ->
  exists ctx',
    AMARILLO_OT_quick_activate_outfit.execute t ctx = FINISHED ctx'
    /\ amarillo_outfits ctx' = amarillo_outfits ctx
    /\ amarillo_active_outfit_index ctx' = t
    /\ forall k,
         k ∉ override_addr <$> shape_keys_at (amarillo_outfits ctx) (Z.to_nat t) ->
         weight (objects ctx') k = weight (objects ctx) k.
Proof.
  intros Ht Ha. rewrite quick_execute_eq, (getitem_in_bounds _ _ Ht).
  destruct Ht as [Ht0 Ht1].
  destruct (Z.leb_spec (len (amarillo_outfits ctx)) t); [lia|].
  destruct (Z.ltb_spec (amarillo_active_outfit_index ctx) (len (amarillo_outfits ctx)));
    [lia|].
  eexists. split; [reflexivity|].
  change (amarillo_outfits (with_active_outfit_index ?c t)) with (amarillo_outfits c).
  change (objects (with_active_outfit_index ?c t)) with (objects c).
  split; [apply transition_outfits|]. split; [reflexivity|].
  intros k Hk. rewrite weight_after_transition. unfold weight_writes. simpl.
  rewrite <- override_writes_names with (f := ShapeKeyEntry.value) in Hk.
  apply last_write_None_iff in Hk. rewrite Hk. reflexivity.
Qed.

Lemma quick_activate_without_previous_example :
  in_bounds (amarillo_outfits (with_active_outfit_index example_scene 2)) 0
  /\ len (amarillo_outfits (with_active_outfit_index example_scene 2))
     <= amarillo_active_outfit_index (with_active_outfit_index example_scene 2)
  /\ exists ctx',
       AMARILLO_OT_quick_activate_outfit.execute 0
         (with_active_outfit_index example_scene 2) = FINISHED ctx'
       /\ amarillo_outfits ctx' = [ casual_outfit; formal_outfit ]
       /\ amarillo_active_outfit_index ctx' = 0.
Proof.
  assert (in_bounds (amarillo_outfits (with_active_outfit_index example_scene 2)) 0)
    as H0 by (unfold in_bounds, len; simpl; lia).
  assert (len (amarillo_outfits (with_active_outfit_index example_scene 2))
          <= amarillo_active_outfit_index (with_active_outfit_index example_scene 2))
    as H2 by (unfold len; simpl; lia).
  split; [exact H0|]. split; [exact H2|].
  destruct (quick_activate_without_previous 0 _ H0 H2) as (ctx' & Hrun & Ho & Hi & _).
  exists ctx'. split; [exact Hrun|]. split; [rewrite Ho; reflexivity | exact Hi].
Defined.

Lemma quick_activation_idempotent_example :
  in_bounds (amarillo_outfits example_scene) 1
  /\ AMARILLO_OT_quick_activate_outfit.execute 1 example_scene
     = FINISHED (final_context
                   (AMARILLO_OT_quick_activate_outfit.execute 1 example_scene))
  /\ exists ctx2,
       AMARILLO_OT_quick_activate_outfit.execute 1
         (final_context (AMARILLO_OT_quick_activate_outfit.execute 1 example_scene))
       = FINISHED ctx2
       /\ flag (layer_collection ctx2) (coll_id formal) = Some false
       /\ flag (layer_collection ctx2) (coll_id casual) = Some true
       /\ weight (objects ctx2) (Some body, "Frown") = Some 1%Q.
Proof.
  assert (in_bounds (amarillo_outfits example_scene) 1) as H1
    by (unfold in_bounds, len; simpl; lia).
  split; [exact H1|]. split; [reflexivity|].
  destruct (quick_activation_idempotent 1 example_scene _ H1 eq_refl)
    as (ctx2 & Hrun & Hflags & Hweights).
  - intros T c x HT Hc Hx. vm_compute in HT. injection HT as <-.
    simpl in Hx. by apply elem_of_nil in Hx.
  - exists ctx2. split; [exact Hrun|].
    rewrite !Hflags, Hweights. repeat split; reflexivity.
Defined.

(** ** Removing a shape-key override *)

Lemma alter_lookup {A} (f : A -> A) (l : list A) i x :
  l !! i = Some x -> alter f i l = <[i := f x]> l.
Proof.
  intros Hx. apply list_eq. intros j.
  destruct (decide (i = j)) as [<-|Hne].
  - rewrite list_lookup_alter_eq, Hx.
    rewrite list_lookup_insert_eq by (eapply lookup_lt_Some; eauto). reflexivity.
  - rewrite list_lookup_alter_ne, list_lookup_insert_ne by done. reflexivity.
Qed.

Lemma remove_in_bounds {A} (l : list A) i :
  in_bounds l i -> remove l i = delete (Z.to_nat i) l.
Proof.
  intros [H0 H1]. unfold remove.
  destruct (Z.leb_spec 0 i); [|lia]. destruct (Z.ltb_spec i (len l)); [|lia].
  reflexivity.
Qed.

Lemma remove_out_of_bounds {A} (l : list A) i :
  ~ in_bounds l i -> remove l i = l.
Proof.
  intros H. unfold remove, in_bounds in *.
  destruct (Z.leb_spec 0 i); [|reflexivity].
  destruct (Z.ltb_spec i (len l)); [lia|reflexivity].
Qed.

(** X8.  With an outfit selected, remove-shape-key finishes and changes that
    outfit only.  If the outfit's active override index designates an
    override, exactly that override is removed; otherwise (empty list
    included) no override is removed.  Either way the index steps down to
    [max(0, index - 1)], and an index that was in range stays in range. *)
Theorem remove_shape_key_effect ctx pos o :
  getitem (amarillo_outfits ctx) (amarillo_active_outfit_index ctx) = Some pos ->
  amarillo_outfits ctx !! pos = Some o ->
  exists o',
    AMARILLO_OT_remove_shape_key.execute ctx
    = FINISHED (with_outfits ctx (<[pos := o']> (amarillo_outfits ctx)))
    /\ OutfitEntry.name o' = OutfitEntry.name o
    /\ OutfitEntry.collection o' = OutfitEntry.collection o
    /\ OutfitEntry.nested_states o' = OutfitEntry.nested_states o
    /\ OutfitEntry.active_shape_key_index o'
       = Z.max 0 (OutfitEntry.active_shape_key_index o - 1)
    /\ (in_bounds (OutfitEntry.shape_keys o) (OutfitEntry.active_shape_key_index o) ->
        OutfitEntry.shape_keys o'
        = delete (Z.to_nat (OutfitEntry.active_shape_key_index o))
                 (OutfitEntry.shape_keys o))
    /\ (~ in_bounds (OutfitEntry.shape_keys o) (OutfitEntry.active_shape_key_index o) ->
        OutfitEntry.shape_keys o' = OutfitEntry.shape_keys o)
    /\ (active_index_ok o -> active_index_ok o').
Proof.
  intros Hpos Ho. unfold AMARILLO_OT_remove_shape_key.execute. rewrite Hpos.
  eexists. split.
  - unfold update_outfit, with_outfits. cbn [amarillo_outfits].
    rewrite (alter_lookup _ _ _ _ Ho).
    rewrite (alter_lookup _ (<[pos:=_]> _) pos _
               (list_lookup_insert_eq _ _ _ (lookup_lt_Some _ _ _ Ho))).
    rewrite list_insert_insert_eq. reflexivity.
  - cbn. split; [reflexivity|]. split; [reflexivity|]. split; [reflexivity|].
    split; [reflexivity|]. split; [apply remove_in_bounds|].
    split; [apply remove_out_of_bounds|].
    unfold active_index_ok. cbn. intros Hok.
    pose proof (Zle_0_nat (length (OutfitEntry.shape_keys o))) as Hlen.
    destruct (decide (in_bounds (OutfitEntry.shape_keys o)
                                (OutfitEntry.active_shape_key_index o))) as [Hin|Hout].
    + rewrite (remove_in_bounds _ _ Hin). destruct Hin as [H0 H1].
      unfold len in *. rewrite length_delete by (apply lookup_lt_is_Some; lia).
      lia.
    + rewrite (remove_out_of_bounds _ _ Hout). unfold in_bounds, len in *. lia.
Qed.

Lemma remove_shape_key_effect_example :
  getitem (amarillo_outfits example_scene)
          (amarillo_active_outfit_index example_scene) = Some 0%nat
  /\ amarillo_outfits example_scene !! 0%nat = Some casual_outfit
  /\ AMARILLO_OT_remove_shape_key.execute example_scene
     = FINISHED (with_outfits example_scene
                   [ OutfitEntry.set_shape_keys casual_outfit []; formal_outfit ]).
Proof.
  split; [reflexivity|]. split; [reflexivity|].
  destruct (remove_shape_key_effect example_scene 0%nat casual_outfit eq_refl eq_refl)
    as (o' & Hrun & _).
  rewrite Hrun. vm_compute in Hrun. injection Hrun as <-. reflexivity.
Defined.

(** X9.  The operators that start by looking up the selected outfit never
    cancel: they raise [IndexError], context untouched, exactly when the
    selected index designates no outfit (as in a scene without outfits),
    and finish otherwise. *)
Theorem selected_outfit_lookup ctx :
  let selected :=
    getitem (amarillo_outfits ctx) (amarillo_active_outfit_index ctx) in
  (selected = None ->
   AMARILLO_OT_remove_outfit.execute ctx = IndexError ctx
   /\ AMARILLO_OT_remove_shape_key.execute ctx = IndexError ctx
   /\ AMARILLO_OT_activate_outfit.execute ctx = IndexError ctx
   /\ AMARILLO_OT_add_shape_key.execute ctx = IndexError ctx)
  /\ (is_Some selected ->
      (exists ctx', AMARILLO_OT_remove_outfit.execute ctx = FINISHED ctx')
      /\ (exists ctx', AMARILLO_OT_remove_shape_key.execute ctx = FINISHED ctx')
      /\ (exists ctx', AMARILLO_OT_activate_outfit.execute ctx = FINISHED ctx'))
  /\ (amarillo_outfits ctx = [] -> selected = None).
Proof.
  intros selected. subst selected. split; [|split].
  - intros E. unfold AMARILLO_OT_remove_outfit.execute,
      AMARILLO_OT_remove_shape_key.execute, AMARILLO_OT_add_shape_key.execute.
    rewrite activate_execute_eq, E. auto.
  - intros [pos E]. unfold AMARILLO_OT_remove_outfit.execute,
      AMARILLO_OT_remove_shape_key.execute.
    rewrite activate_execute_eq, E. repeat split; eexists; reflexivity.
  - intros E. rewrite E. unfold getitem, len. simpl.
    set (k := if _ <? 0 then _ else _). clearbody k. change (Z.of_nat 0) with 0.
    destruct (Z.leb_spec 0 k), (Z.ltb_spec k 0); try reflexivity; lia.
Qed.

(** ** Adding an override and removing it again *)

Lemma add_shape_key_FINISHED ctx ctx1 :
  AMARILLO_OT_add_shape_key.execute ctx = FINISHED ctx1 ->
  exists pos sk,
    getitem (amarillo_outfits ctx) (amarillo_active_outfit_index ctx) = Some pos
    /\ ctx1 = update_outfit ctx pos (fun o =>
                OutfitEntry.set_shape_keys o (OutfitEntry.shape_keys o ++ [sk])).
Proof.
  unfold AMARILLO_OT_add_shape_key.execute.
  destruct (getitem (amarillo_outfits ctx) (amarillo_active_outfit_index ctx))
    as [pos|]; [|discriminate].
  destruct (0 <=? amarillo_active_model_index ctx); [|discriminate].
  destruct (getitem (amarillo_managed_models ctx) (amarillo_active_model_index ctx))
    as [m|]; [|discriminate].
  destruct (amarillo_managed_models ctx !! m ≫= ManagedModelEntry.object) as [oid|];
    [|discriminate].
  destruct (objects ctx !! oid) as [ob|]; [|discriminate].
  destruct (Object.shape_keys ob); [|discriminate].
  destruct (active_shape_key ob) as [key|]; [|discriminate].
  destruct (negb _); [|discriminate].
  intros [= <-]. eauto.
Qed.

Lemma alter_insert {A} (f : A -> A) (l : list A) i x :
  (i < length l)%nat -> alter f i (<[i := x]> l) = <[i := f x]> l.
Proof.
  intros Hlt.
  rewrite (alter_lookup f _ i x) by (apply list_lookup_insert_eq; exact Hlt).
  apply list_insert_insert_eq.
Qed.

(** X10.  After a successful add-shape-key, selecting the new override (the
    last of the list) and running remove-shape-key gives every outfit
    the override list it had before the add; only the active override
    index of the selected outfit may differ. *)
Theorem add_then_remove_shape_key ctx ctx1 pos o :
  AMARILLO_OT_add_shape_key.execute ctx = FINISHED ctx1 ->
  getitem (amarillo_outfits ctx) (amarillo_active_outfit_index ctx) = Some pos ->
  amarillo_outfits ctx !! pos = Some o ->
  let selected :=
    update_outfit ctx1 pos (fun o' =>
      OutfitEntry.set_active_shape_key_index o' (len (OutfitEntry.shape_keys o))) in
  AMARILLO_OT_remove_shape_key.execute selected
  = FINISHED
      (update_outfit ctx pos (fun o' =>
         OutfitEntry.set_active_shape_key_index o'
           (Z.max 0 (len (OutfitEntry.shape_keys o) - 1)))).
Proof.
  intros Hadd Hpos Ho selected. subst selected.
  destruct (add_shape_key_FINISHED _ _ Hadd) as (pos' & sk & Hpos' & ->).
  rewrite Hpos in Hpos'. injection Hpos' as <-.
  unfold AMARILLO_OT_remove_shape_key.execute, update_outfit, with_outfits.
  cbn [amarillo_outfits amarillo_active_outfit_index].
  rewrite (getitem_length _ (amarillo_outfits ctx)) by (rewrite !length_alter; reflexivity).
  rewrite Hpos. f_equal. f_equal.
  rewrite !(alter_lookup _ (amarillo_outfits ctx) pos o Ho).
  pose proof (lookup_lt_Some _ _ _ Ho) as Hlt.
  rewrite !alter_insert by exact Hlt.
  f_equal.
  unfold OutfitEntry.set_active_shape_key_index, OutfitEntry.set_shape_keys.
  cbn [OutfitEntry.name OutfitEntry.collection OutfitEntry.shape_keys
       OutfitEntry.active_shape_key_index OutfitEntry.nested_states].
  f_equal.
  pose proof (Zle_0_nat (length (OutfitEntry.shape_keys o))).
  rewrite remove_in_bounds
    by (unfold in_bounds, len; rewrite length_app; simpl; lia).
  unfold len. rewrite Nat2Z.id.
  rewrite delete_take_drop, take_app_length.
  replace (S (length (OutfitEntry.shape_keys o)))
    with (length (OutfitEntry.shape_keys o) + 1)%nat by lia.
  rewrite drop_app_add. simpl. apply app_nil_r.
Qed.

Lemma add_then_remove_shape_key_example :
  AMARILLO_OT_add_shape_key.execute example_scene
  = FINISHED (final_context (AMARILLO_OT_add_shape_key.execute example_scene))
  /\ getitem (amarillo_outfits example_scene)
             (amarillo_active_outfit_index example_scene) = Some 0%nat
  /\ amarillo_outfits example_scene !! 0%nat = Some casual_outfit
  /\ AMARILLO_OT_remove_shape_key.execute
       (update_outfit (final_context (AMARILLO_OT_add_shape_key.execute example_scene))
          0 (fun o' => OutfitEntry.set_active_shape_key_index o' 1))
     = FINISHED example_scene.
Proof.
  split; [reflexivity|]. split; [reflexivity|]. split; [reflexivity|].
  apply (add_then_remove_shape_key example_scene _ 0%nat casual_outfit
           eq_refl eq_refl eq_refl).
Defined.

(** ** Reordering the outfit list *)

Lemma move_Permutation {A} (l : list A) key pos : move l key pos ≡ₚ l.
Proof.
  unfold move. destruct (andb _ (negb _)); [|reflexivity].
  destruct (l !! Z.to_nat key) as [x|] eqn:Hx; [|reflexivity].
  rewrite <- Permutation_middle, take_drop.
  symmetry. by apply delete_Permutation.
Qed.

Lemma move_in_bounds {A} (l : list A) key pos x :
  in_bounds l key -> in_bounds l pos -> key <> pos ->
  l !! Z.to_nat key = Some x ->
  move l key pos
  = take (Z.to_nat pos) (delete (Z.to_nat key) l)
    ++ x :: drop (Z.to_nat pos) (delete (Z.to_nat key) l).
Proof.
  intros [] [] Hne Hx. unfold move.
  destruct (Z.leb_spec 0 key); [|lia]. destruct (Z.ltb_spec key (len l)); [|lia].
  destruct (Z.leb_spec 0 pos); [|lia]. destruct (Z.ltb_spec pos (len l)); [|lia].
  destruct (Z.eqb_spec key pos); [lia|]. rewrite Hx. reflexivity.
Qed.

Lemma move_out_of_bounds {A} (l : list A) key pos :
  ~ in_bounds l key -> move l key pos = l.
Proof.
  intros Hout. unfold move, in_bounds in *.
  destruct (Z.leb_spec 0 key); [|reflexivity].
  destruct (Z.ltb_spec key (len l)); [lia|reflexivity].
Qed.

Lemma len_adjacent {A} (pre : list A) a b post :
  len (pre ++ a :: b :: post) = len pre + 2 + len post.
Proof. unfold len. rewrite length_app. cbn [length]. lia. Qed.

Lemma move_down_app {A} (pre : list A) a b post :
  move (pre ++ a :: b :: post) (len pre) (len pre + 1) = pre ++ b :: a :: post.
Proof.
  pose proof (Zle_0_nat (length pre)). pose proof (Zle_0_nat (length post)).
  rewrite (move_in_bounds _ _ _ a).
  - unfold len. rewrite Nat2Z.id.
    replace (Z.to_nat (Z.of_nat (length pre) + 1)) with (S (length pre)) by lia.
    rewrite delete_middle.
    replace (pre ++ b :: post) with ((pre ++ [b]) ++ post)
      by (rewrite <- app_assoc; reflexivity).
    rewrite take_app_length', drop_app_length'
      by (rewrite length_app; cbn [length]; lia).
    rewrite <- app_assoc. reflexivity.
  - unfold in_bounds. rewrite len_adjacent. unfold len. lia.
  - unfold in_bounds. rewrite len_adjacent. unfold len. lia.
  - lia.
  - unfold len. rewrite Nat2Z.id. apply list_lookup_middle. reflexivity.
Qed.

Lemma move_up_app {A} (pre : list A) a b post :
  move (pre ++ a :: b :: post) (len pre + 1) (len pre) = pre ++ b :: a :: post.
Proof.
  pose proof (Zle_0_nat (length pre)). pose proof (Zle_0_nat (length post)).
  rewrite (move_in_bounds _ _ _ b).
  - unfold len. rewrite Nat2Z.id.
    replace (Z.to_nat (Z.of_nat (length pre) + 1)) with (length (pre ++ [a]))
      by (rewrite length_app; cbn [length]; lia).
    replace (pre ++ a :: b :: post) with ((pre ++ [a]) ++ b :: post)
      by (rewrite <- app_assoc; reflexivity).
    rewrite delete_middle, <- app_assoc. cbn [app].
    rewrite take_app_length, drop_app_length. reflexivity.
  - unfold in_bounds. rewrite len_adjacent. unfold len. lia.
  - unfold in_bounds. rewrite len_adjacent. unfold len. lia.
  - lia.
  - replace (Z.to_nat (len pre + 1)) with (length (pre ++ [a]))
      by (unfold len; rewrite length_app; cbn [length]; lia).
    replace (pre ++ a :: b :: post) with ((pre ++ [a]) ++ b :: post)
      by (rewrite <- app_assoc; reflexivity).
    apply list_lookup_middle. reflexivity.
Qed.

Lemma move_outfit_up_app ctx pre a b post :
  amarillo_outfits ctx = pre ++ a :: b :: post ->
  amarillo_active_outfit_index ctx = len pre + 1 ->
  AMARILLO_OT_move_outfit.execute AMARILLO_OT_move_outfit.UP ctx
  = FINISHED (with_active_outfit_index
                (with_outfits ctx (pre ++ b :: a :: post)) (len pre)).
Proof.
  intros Hl Hi. unfold AMARILLO_OT_move_outfit.execute.
  rewrite Hl, Hi. pose proof (Zle_0_nat (length pre)).
  destruct (Z.ltb_spec 0 (len pre + 1)); [|unfold len in *; lia].
  replace (len pre + 1 - 1) with (len pre) by lia.
  rewrite move_up_app. reflexivity.
Qed.

Lemma move_outfit_down_app ctx pre a b post :
  amarillo_outfits ctx = pre ++ a :: b :: post ->
  amarillo_active_outfit_index ctx = len pre ->
  AMARILLO_OT_move_outfit.execute AMARILLO_OT_move_outfit.DOWN ctx
  = FINISHED (with_active_outfit_index
                (with_outfits ctx (pre ++ b :: a :: post)) (len pre + 1)).
Proof.
  intros Hl Hi. unfold AMARILLO_OT_move_outfit.execute.
  rewrite Hl, Hi. pose proof (Zle_0_nat (length post)).
  rewrite len_adjacent.
  destruct (Z.ltb_spec (len pre) (len pre + 2 + len post - 1));
    [|unfold len in *; lia].
  rewrite move_down_app. reflexivity.
Qed.

Lemma split_adjacent {A} (l : list A) (i : nat) :
  (S i < length l)%nat ->
  exists pre a b post, l = pre ++ a :: b :: post /\ length pre = i.
Proof.
  intros Hlt. exists (take i l).
  pose proof (take_drop i l) as Hsplit.
  pose proof (length_drop l i) as Hd.
  destruct (drop i l) as [|a [|b post]]; cbn [length] in Hd; try lia.
  exists a, b, post. split; [by rewrite Hsplit|].
  rewrite length_take. lia.
Qed.

Lemma with_outfits_index_id ctx :
  with_active_outfit_index (with_outfits ctx (amarillo_outfits ctx))
    (amarillo_active_outfit_index ctx) = ctx.
Proof. destruct ctx. reflexivity. Qed.

(** X11.  Moving the selected outfit exchanges it with its neighbour, and the
    selection goes with it: UP exchanges it with the outfit before it,
    DOWN with the outfit after it; no other outfit changes place. *)
Theorem move_outfit_swaps ctx pre a b post :
  amarillo_outfits ctx = pre ++ a :: b :: post ->
  (amarillo_active_outfit_index ctx = len pre + 1 ->
   AMARILLO_OT_move_outfit.execute AMARILLO_OT_move_outfit.UP ctx
   = FINISHED (with_active_outfit_index
                 (with_outfits ctx (pre ++ b :: a :: post)) (len pre)))
  /\ (amarillo_active_outfit_index ctx = len pre ->
      AMARILLO_OT_move_outfit.execute AMARILLO_OT_move_outfit.DOWN ctx
      = FINISHED (with_active_outfit_index
                    (with_outfits ctx (pre ++ b :: a :: post)) (len pre + 1))).
Proof.
  intros Hl. split; intros Hi.
  - by apply move_outfit_up_app.
  - by apply move_outfit_down_app.
Qed.

Lemma move_outfit_swaps_example :
  amarillo_outfits example_scene = [] ++ casual_outfit :: formal_outfit :: []
  /\ AMARILLO_OT_move_outfit.execute AMARILLO_OT_move_outfit.DOWN example_scene
     = FINISHED (with_active_outfit_index
                   (with_outfits example_scene [formal_outfit; casual_outfit]) 1).
Proof.
  split; [reflexivity|].
  apply (proj2 (move_outfit_swaps example_scene [] casual_outfit formal_outfit []
                  eq_refl) eq_refl).
Defined.

(** X12.  Moving the selected outfit up and then down, or down and then up,
    gives back the scene as it was, whenever the first move is not at the
    end of the list it moves towards. *)
Theorem move_outfit_round_trip ctx :
  in_bounds (amarillo_outfits ctx) (amarillo_active_outfit_index ctx) ->
  (0 < amarillo_active_outfit_index ctx ->
   AMARILLO_OT_move_outfit.execute AMARILLO_OT_move_outfit.DOWN
     (final_context
        (AMARILLO_OT_move_outfit.execute AMARILLO_OT_move_outfit.UP ctx))
   = FINISHED ctx)
  /\ (amarillo_active_outfit_index ctx < len (amarillo_outfits ctx) - 1 ->
      AMARILLO_OT_move_outfit.execute AMARILLO_OT_move_outfit.UP
        (final_context
           (AMARILLO_OT_move_outfit.execute AMARILLO_OT_move_outfit.DOWN ctx))
      = FINISHED ctx).
Proof.
  intros [Hlo Hhi]. unfold len in Hhi. split; intros Hi.
  - destruct (split_adjacent (amarillo_outfits ctx)
                (Z.to_nat (amarillo_active_outfit_index ctx - 1)))
      as (pre & a & b & post & Hl & Hpre); [lia|].
    assert (Hidx : amarillo_active_outfit_index ctx = len pre + 1)
      by (unfold len; lia).
    rewrite (move_outfit_up_app ctx pre a b post Hl Hidx).
    cbn [final_context].
    rewrite (move_outfit_down_app
               (with_active_outfit_index
                  (with_outfits ctx (pre ++ b :: a :: post)) (len pre))
               pre b a post eq_refl eq_refl).
    f_equal. rewrite <- Hl, <- Hidx.
    destruct ctx. reflexivity.
  - unfold len in Hi.
    destruct (split_adjacent (amarillo_outfits ctx)
                (Z.to_nat (amarillo_active_outfit_index ctx)))
      as (pre & a & b & post & Hl & Hpre); [lia|].
    assert (Hidx : amarillo_active_outfit_index ctx = len pre)
      by (unfold len; lia).
    rewrite (move_outfit_down_app ctx pre a b post Hl Hidx).
    cbn [final_context].
    rewrite (move_outfit_up_app
               (with_active_outfit_index
                  (with_outfits ctx (pre ++ b :: a :: post)) (len pre + 1))
               pre b a post eq_refl eq_refl).
    f_equal. rewrite <- Hl, <- Hidx.
    destruct ctx. reflexivity.
Qed.

Lemma move_outfit_round_trip_example :
  in_bounds (amarillo_outfits example_scene)
            (amarillo_active_outfit_index example_scene)
  /\ AMARILLO_OT_move_outfit.execute AMARILLO_OT_move_outfit.UP
       (final_context
          (AMARILLO_OT_move_outfit.execute AMARILLO_OT_move_outfit.DOWN
             example_scene))
     = FINISHED example_scene.
Proof.
  assert (H : in_bounds (amarillo_outfits example_scene)
                        (amarillo_active_outfit_index example_scene))
    by (unfold in_bounds, len; simpl; lia).
  split; [exact H|].
  apply (proj2 (move_outfit_round_trip example_scene H)).
  unfold len. simpl. lia.
Defined.

(** X13.  Whatever the selection, a move only reorders: the operator
    finishes, the outfits after it are a permutation of the outfits
    before it, the selection moves by at most one position, and nothing
    but the outfit list and its selection is written.  The scene is left
    as it was exactly when the move is UP with the selection at or before
    the first position, or DOWN with the selection at or after the last. *)
Theorem move_outfit_reorders direction ctx :
  exists ctx',
    AMARILLO_OT_move_outfit.execute direction ctx = FINISHED ctx'
    /\ amarillo_outfits ctx' ≡ₚ amarillo_outfits ctx
    /\ amarillo_active_outfit_index ctx - 1 <= amarillo_active_outfit_index ctx'
       <= amarillo_active_outfit_index ctx + 1
    /\ amarillo_managed_models ctx' = amarillo_managed_models ctx
    /\ amarillo_active_model_index ctx' = amarillo_active_model_index ctx
    /\ layer_collection ctx' = layer_collection ctx
    /\ objects ctx' = objects ctx
    /\ (ctx' = ctx <->
        match direction with
        | AMARILLO_OT_move_outfit.UP => amarillo_active_outfit_index ctx <= 0
        | AMARILLO_OT_move_outfit.DOWN =>
            len (amarillo_outfits ctx) - 1 <= amarillo_active_outfit_index ctx
        end).
Proof.
  unfold AMARILLO_OT_move_outfit.execute. destruct direction.
  - destruct (Z.ltb_spec 0 (amarillo_active_outfit_index ctx)) as [Hlt|Hge].
    + eexists. split; [reflexivity|].
      cbn [amarillo_outfits amarillo_active_outfit_index amarillo_managed_models
           amarillo_active_model_index layer_collection objects
           with_outfits with_active_outfit_index].
      repeat (split; [first [apply move_Permutation | lia | reflexivity]|]).
      split; [|lia]. intros Heq.
      apply (f_equal amarillo_active_outfit_index) in Heq.
      cbn [amarillo_active_outfit_index with_active_outfit_index] in Heq. lia.
    + exists ctx. repeat (split; [first [reflexivity | lia]|]). tauto.
  - destruct (Z.ltb_spec (amarillo_active_outfit_index ctx)
                         (len (amarillo_outfits ctx) - 1)) as [Hlt|Hge].
    + eexists. split; [reflexivity|].
      cbn [amarillo_outfits amarillo_active_outfit_index amarillo_managed_models
           amarillo_active_model_index layer_collection objects
           with_outfits with_active_outfit_index].
      repeat (split; [first [apply move_Permutation | lia | reflexivity]|]).
      split; [|lia]. intros Heq.
      apply (f_equal amarillo_active_outfit_index) in Heq.
      cbn [amarillo_active_outfit_index with_active_outfit_index] in Heq. lia.
    + exists ctx. repeat (split; [first [reflexivity | lia]|]). tauto.
Qed.

(** X14.  With an outfit selected, a move keeps that outfit selected: the
    selection stays in range and designates the same outfit after the
    move as before it, at either end of the list as well. *)
Theorem move_outfit_follows_selection direction ctx :
  in_bounds (amarillo_outfits ctx) (amarillo_active_outfit_index ctx) ->
  let ctx' := final_context (AMARILLO_OT_move_outfit.execute direction ctx) in
  in_bounds (amarillo_outfits ctx') (amarillo_active_outfit_index ctx')
  /\ amarillo_outfits ctx' !! Z.to_nat (amarillo_active_outfit_index ctx')
     = amarillo_outfits ctx !! Z.to_nat (amarillo_active_outfit_index ctx).
Proof.
  intros Hin ctx'. subst ctx'. pose proof Hin as [Hlo Hhi]. unfold len in Hhi.
  destruct direction.
  - destruct (Z.ltb_spec 0 (amarillo_active_outfit_index ctx)) as [Hlt|Hge].
    + destruct (split_adjacent (amarillo_outfits ctx)
                  (Z.to_nat (amarillo_active_outfit_index ctx - 1)))
        as (pre & a & b & post & Hl & Hpre); [lia|].
      assert (Hidx : amarillo_active_outfit_index ctx = len pre + 1)
        by (unfold len; lia).
      rewrite (move_outfit_up_app ctx pre a b post Hl Hidx).
      cbn [final_context amarillo_outfits amarillo_active_outfit_index
           with_outfits with_active_outfit_index].
      rewrite Hl, Hidx. split.
      * unfold in_bounds. rewrite len_adjacent. unfold len. lia.
      * unfold len. rewrite Nat2Z.id.
        replace (Z.to_nat (Z.of_nat (length pre) + 1)) with (length (pre ++ [a]))
          by (rewrite length_app; cbn [length]; lia).
        replace (pre ++ a :: b :: post) with ((pre ++ [a]) ++ b :: post)
          by (rewrite <- app_assoc; reflexivity).
        rewrite !list_lookup_middle by reflexivity. reflexivity.
    + unfold AMARILLO_OT_move_outfit.execute.
      destruct (Z.ltb_spec 0 (amarillo_active_outfit_index ctx)); [lia|].
      cbn [final_context]. split; [exact Hin | reflexivity].
  - destruct (Z.ltb_spec (amarillo_active_outfit_index ctx)
                         (len (amarillo_outfits ctx) - 1)) as [Hlt|Hge].
    + unfold len in Hlt.
      destruct (split_adjacent (amarillo_outfits ctx)
                  (Z.to_nat (amarillo_active_outfit_index ctx)))
        as (pre & a & b & post & Hl & Hpre); [lia|].
      assert (Hidx : amarillo_active_outfit_index ctx = len pre)
        by (unfold len; lia).
      rewrite (move_outfit_down_app ctx pre a b post Hl Hidx).
      cbn [final_context amarillo_outfits amarillo_active_outfit_index
           with_outfits with_active_outfit_index].
      rewrite Hl, Hidx. split.
      * unfold in_bounds. rewrite len_adjacent. unfold len. lia.
      * unfold len. rewrite Nat2Z.id.
        replace (Z.to_nat (Z.of_nat (length pre) + 1)) with (length (pre ++ [b]))
          by (rewrite length_app; cbn [length]; lia).
        replace (pre ++ b :: a :: post) with ((pre ++ [b]) ++ a :: post)
          by (rewrite <- app_assoc; reflexivity).
        rewrite !list_lookup_middle by reflexivity. reflexivity.
    + unfold AMARILLO_OT_move_outfit.execute.
      destruct (Z.ltb_spec (amarillo_active_outfit_index ctx)
                           (len (amarillo_outfits ctx) - 1)); [lia|].
      cbn [final_context]. split; [exact Hin | reflexivity].
Qed.

Lemma move_outfit_follows_selection_example :
  in_bounds (amarillo_outfits example_scene)
            (amarillo_active_outfit_index example_scene)
  /\ amarillo_outfits
       (final_context
          (AMARILLO_OT_move_outfit.execute AMARILLO_OT_move_outfit.DOWN
             example_scene)) !! 1%nat
     = Some casual_outfit.
Proof.
  assert (H : in_bounds (amarillo_outfits example_scene)
                        (amarillo_active_outfit_index example_scene))
    by (unfold in_bounds, len; simpl; lia).
  split; [exact H|].
  apply (proj2 (move_outfit_follows_selection AMARILLO_OT_move_outfit.DOWN
                  example_scene H)).
Defined.

(** ** Adding an outfit *)

Lemma alter_last {A} (f : A -> A) (l : list A) x :
  alter f (length l) (l ++ [x]) = l ++ [f x].
Proof.
  rewrite (alter_lookup f _ _ x) by (apply list_lookup_middle; reflexivity).
  replace (length l) with (length l + 0)%nat by lia.
  rewrite insert_app_r. reflexivity.
Qed.

Lemma update_added ctx l x f :
  update_outfit (with_outfits ctx (l ++ [x])) (length l) f
  = with_outfits ctx (l ++ [f x]).
Proof.
  unfold update_outfit. cbn [amarillo_outfits with_outfits].
  rewrite alter_last. reflexivity.
Qed.

Lemma add_outfit_closed selected active ctx :
  let bound :=
    match selected with
    | first :: _ => Some first
    | [] =>
        match active with
        | Some c =>
            if decide (coll_id c ∈ layer_ids (layer_collection ctx))
            then Some c else None
        | None => None
        end
    end in
  AMARILLO_OT_add_outfit.execute selected active ctx
  = FINISHED
      (with_outfits ctx
         (amarillo_outfits ctx
          ++ [OutfitEntry.mk
                (match bound with
                 | Some c => coll_name c
                 | None =>
                     "Outfit " +:+ pretty (S (length (amarillo_outfits ctx)))
                 end)
                bound [] 0 []])).
Proof.
  intros bound. subst bound. unfold AMARILLO_OT_add_outfit.execute. cbv zeta.
  assert (Hunbound :
    match amarillo_outfits
            (with_outfits ctx (amarillo_outfits ctx ++ [AMARILLO_OT_add_outfit.added]))
          !! length (amarillo_outfits ctx) ≫= OutfitEntry.collection with
    | Some _ =>
        with_outfits ctx (amarillo_outfits ctx ++ [AMARILLO_OT_add_outfit.added])
    | None =>
        update_outfit
          (with_outfits ctx (amarillo_outfits ctx ++ [AMARILLO_OT_add_outfit.added]))
          (length (amarillo_outfits ctx))
          (fun o =>
             OutfitEntry.mk
               ("Outfit " +:+
                pretty (length (amarillo_outfits
                          (with_outfits ctx
                             (amarillo_outfits ctx ++ [AMARILLO_OT_add_outfit.added])))))
               (OutfitEntry.collection o) (OutfitEntry.shape_keys o)
               (OutfitEntry.active_shape_key_index o)
               (OutfitEntry.nested_states o))
    end
    = with_outfits ctx
        (amarillo_outfits ctx
         ++ [OutfitEntry.mk
               ("Outfit " +:+ pretty (S (length (amarillo_outfits ctx))))
               None [] 0 []])).
  { cbn [amarillo_outfits with_outfits].
    rewrite list_lookup_middle by reflexivity.
    cbn [mbind option_bind AMARILLO_OT_add_outfit.added OutfitEntry.collection].
    rewrite update_added. rewrite length_app. cbn [length].
    rewrite Nat.add_1_r. reflexivity. }
  assert (Hbound : forall c,
    match amarillo_outfits
            (update_outfit
               (with_outfits ctx (amarillo_outfits ctx ++ [AMARILLO_OT_add_outfit.added]))
               (length (amarillo_outfits ctx))
               (fun o => OutfitEntry.set_collection o (Some c)))
          !! length (amarillo_outfits ctx) ≫= OutfitEntry.collection with
    | Some _ =>
        update_outfit
          (with_outfits ctx (amarillo_outfits ctx ++ [AMARILLO_OT_add_outfit.added]))
          (length (amarillo_outfits ctx))
          (fun o => OutfitEntry.set_collection o (Some c))
    | None =>
        update_outfit
          (update_outfit
             (with_outfits ctx (amarillo_outfits ctx ++ [AMARILLO_OT_add_outfit.added]))
             (length (amarillo_outfits ctx))
             (fun o => OutfitEntry.set_collection o (Some c)))
          (length (amarillo_outfits ctx))
          (fun o =>
             OutfitEntry.mk
               ("Outfit " +:+
                pretty (length (amarillo_outfits
                          (update_outfit
                             (with_outfits ctx
                                (amarillo_outfits ctx ++ [AMARILLO_OT_add_outfit.added]))
                             (length (amarillo_outfits ctx))
                             (fun o => OutfitEntry.set_collection o (Some c))))))
               (OutfitEntry.collection o) (OutfitEntry.shape_keys o)
               (OutfitEntry.active_shape_key_index o)
               (OutfitEntry.nested_states o))
    end
    = with_outfits ctx
        (amarillo_outfits ctx
         ++ [OutfitEntry.mk (coll_name c) (Some c) [] 0 []])).
  { intros c. rewrite update_added. cbn [amarillo_outfits with_outfits].
    rewrite list_lookup_middle by reflexivity. reflexivity. }
  destruct selected as [|first rest].
  - destruct active as [c|].
    + change (AMARILLO_OT_add_outfit.find_layer_collection
                (layer_collection
                   (with_outfits ctx
                      (amarillo_outfits ctx ++ [AMARILLO_OT_add_outfit.added])))
                (coll_id c))
        with (find_layer_collection (layer_collection ctx) (coll_id c)).
      pose proof (find_layer_collection_None (layer_collection ctx) (coll_id c)) as HN.
      destruct (find_layer_collection (layer_collection ctx) (coll_id c)) as [p|].
      * rewrite decide_True.
        -- f_equal. apply Hbound.
        -- destruct (decide (coll_id c ∈ layer_ids (layer_collection ctx)))
             as [Hin|Hout]; [exact Hin|].
           apply HN in Hout. discriminate.
      * rewrite decide_False by (by apply HN).
        f_equal. apply Hunbound.
    + f_equal. apply Hunbound.
  - f_equal. apply Hbound.
Qed.


(** ** The quick-activate button of a list item *)

Lemma find_from_first outfits n : forall i,
  match list_find (fun o => OutfitEntry.name o = n) outfits with
  | Some (j, _) => find_from i outfits n = i + Z.of_nat j
  | None => find_from i outfits n = -1
  end.
Proof.
  induction outfits as [|o rest IH]; intros i; [reflexivity|].
  cbn [find_from list_find].
  destruct (String.eqb_spec (OutfitEntry.name o) n) as [E|E].
  - rewrite decide_True by exact E. lia.
  - rewrite decide_False by exact E. specialize (IH (i + 1)).
    destruct (list_find _ rest) as [[j x]|];
      cbn [fmap option_fmap option_map prod_map fst snd]; [lia | exact IH].
Qed.

Lemma find_of_item outfits j item :
  outfits !! j = Some item ->
  exists k o,
    find outfits (OutfitEntry.name item) = Z.of_nat k
    /\ (k <= j)%nat
    /\ outfits !! k = Some o
    /\ OutfitEntry.name o = OutfitEntry.name item
    /\ (forall k' o', (k' < k)%nat -> outfits !! k' = Some o' ->
          OutfitEntry.name o' <> OutfitEntry.name item).
Proof.
  intros Hj. unfold find.
  pose proof (find_from_first outfits (OutfitEntry.name item) 0) as Hf.
  destruct (list_find _ outfits) as [[k o]|] eqn:E.
  - apply list_find_Some in E as (Hk & Hname & Hfirst).
    exists k, o. split; [lia|]. split; [|split; [exact Hk|split; [exact Hname|]]].
    + destruct (decide (k <= j)%nat) as [|Hgt]; [assumption|].
      exfalso. apply (Hfirst j item Hj); [lia | reflexivity].
    + intros k' o' Hlt Hk'. exact (Hfirst k' o' Hk' Hlt).
  - apply list_find_None in E. rewrite Forall_forall in E.
    exfalso. apply (E item); [|reflexivity].
    eapply list_elem_of_lookup_2; eassumption.
Qed.

(** X16.  The index given to the quick-activate button of a list item is the
    position of the first outfit that has the item's name.  It is a
    position of the list, at or before the item's own, and it is the
    item's own exactly when no earlier outfit shares its name. *)
Theorem quick_button_index ctx j item :
  amarillo_outfits ctx !! j = Some item ->
  exists k o,
    AMARILLO_UL_outfits.outfit_index ctx item = Z.of_nat k
    /\ (k <= j)%nat
    /\ amarillo_outfits ctx !! k = Some o
    /\ OutfitEntry.name o = OutfitEntry.name item
    /\ (forall k' o', (k' < k)%nat -> amarillo_outfits ctx !! k' = Some o' ->
          OutfitEntry.name o' <> OutfitEntry.name item)
    /\ (k = j <->
        forall k' o', (k' < j)%nat -> amarillo_outfits ctx !! k' = Some o' ->
          OutfitEntry.name o' <> OutfitEntry.name item).
Proof.
  intros Hj. unfold AMARILLO_UL_outfits.outfit_index.
  destruct (find_of_item _ _ _ Hj) as (k & o & Hf & Hle & Hk & Hname & Hfirst).
  exists k, o.
  split; [exact Hf|]. split; [exact Hle|]. split; [exact Hk|].
  split; [exact Hname|]. split; [exact Hfirst|]. split.
  - intros <-. exact Hfirst.
  - intros Hnone. destruct (decide (k = j)) as [|Hne]; [assumption|].
    exfalso. apply (Hnone k o); [lia | assumption | assumption].
Qed.

Lemma quick_button_index_example :
  amarillo_outfits example_scene !! 1%nat = Some formal_outfit
  /\ exists k o,
       AMARILLO_UL_outfits.outfit_index example_scene formal_outfit = Z.of_nat k
       /\ (k <= 1)%nat
       /\ amarillo_outfits example_scene !! k = Some o
       /\ OutfitEntry.name o = OutfitEntry.name formal_outfit
       /\ (forall k' o', (k' < k)%nat ->
             amarillo_outfits example_scene !! k' = Some o' ->
             OutfitEntry.name o' <> OutfitEntry.name formal_outfit)
       /\ (k = 1%nat <->
           forall k' o', (k' < 1)%nat ->
             amarillo_outfits example_scene !! k' = Some o' ->
             OutfitEntry.name o' <> OutfitEntry.name formal_outfit).
Proof.
  split; [reflexivity|].
  apply (quick_button_index example_scene 1 formal_outfit eq_refl).
Defined.

(** X17.  Pressing the quick-activate button of a list item, in a scene whose
    selection is in range, finishes and makes the first outfit of the
    item's name the active one; the selection stays in range.  When the
    outfits have distinct names, that outfit is the item itself. *)
Theorem quick_button_activates ctx j item :
  outfit_selection_ok ctx ->
  amarillo_outfits ctx !! j = Some item ->
  exists ctx',
    AMARILLO_OT_quick_activate_outfit.execute
      (AMARILLO_UL_outfits.outfit_index ctx item) ctx = FINISHED ctx'
    /\ amarillo_active_outfit_index ctx'
       = AMARILLO_UL_outfits.outfit_index ctx item
    /\ in_bounds (amarillo_outfits ctx') (amarillo_active_outfit_index ctx')
    /\ (NoDup (OutfitEntry.name <$> amarillo_outfits ctx) ->
        amarillo_active_outfit_index ctx' = Z.of_nat j).
Proof.
  intros Hsel Hj. unfold AMARILLO_UL_outfits.outfit_index.
  destruct (find_of_item _ _ _ Hj) as (k & o & Hf & Hle & Hk & Hname & Hfirst).
  pose proof (lookup_lt_Some _ _ _ Hj) as Hlt.
  assert (Ht : in_bounds (amarillo_outfits ctx)
                 (find (amarillo_outfits ctx) (OutfitEntry.name item)))
    by (rewrite Hf; unfold in_bounds, len; lia).
  assert (Ha : in_bounds (amarillo_outfits ctx) (amarillo_active_outfit_index ctx))
    by (unfold outfit_selection_ok, in_bounds, len in *; lia).
  rewrite (quick_activate_in_bounds _ _ Ht Ha).
  eexists. split; [reflexivity|].
  cbn [amarillo_active_outfit_index amarillo_outfits with_active_outfit_index].
  split; [reflexivity|]. split.
  - unfold in_bounds, len in *. rewrite transition_outfits, outfits_after_length.
    exact Ht.
  - intros Hnodup. rewrite Hf. f_equal.
    apply (NoDup_lookup _ k j (OutfitEntry.name item) Hnodup).
    + rewrite list_lookup_fmap, Hk. cbn. by rewrite Hname.
    + rewrite list_lookup_fmap, Hj. reflexivity.
Qed.

Lemma quick_button_activates_example :
  outfit_selection_ok example_scene
  /\ amarillo_outfits example_scene !! 1%nat = Some formal_outfit
  /\ exists ctx',
       AMARILLO_OT_quick_activate_outfit.execute
         (AMARILLO_UL_outfits.outfit_index example_scene formal_outfit)
         example_scene = FINISHED ctx'
       /\ amarillo_active_outfit_index ctx'
          = AMARILLO_UL_outfits.outfit_index example_scene formal_outfit
       /\ in_bounds (amarillo_outfits ctx') (amarillo_active_outfit_index ctx')
       /\ (NoDup (OutfitEntry.name <$> amarillo_outfits example_scene) ->
           amarillo_active_outfit_index ctx' = Z.of_nat 1).
Proof.
  assert (H : outfit_selection_ok example_scene)
    by (unfold outfit_selection_ok, len; simpl; lia).
  split; [exact H|]. split; [reflexivity|].
  apply (quick_button_activates example_scene 1 formal_outfit H eq_refl).
Defined.

(** ** The model registry *)

Lemma existsb_managed models ob :
  existsb (fun model => bool_decide (ManagedModelEntry.object model = Some ob))
          models = true
  <-> ob ∈ omap ManagedModelEntry.object models.
Proof.
  rewrite existsb_exists, list_elem_of_omap. split.
  - intros (m & Hin & Hm). exists m. split; [by apply list_elem_of_In|].
    by apply bool_decide_eq_true in Hm.
  - intros (m & Hin & Hm). exists m. split; [by apply list_elem_of_In|].
    by apply bool_decide_eq_true.
Qed.

Lemma add_managed_model_cases active ctx :
  AMARILLO_OT_add_managed_model.execute active ctx
  = match active with
    | Some (ob, ty) =>
        if String.eqb ty "MESH" then
          if decide (ob ∈ managed_objects ctx)
          then CANCELLED (Some AMARILLO_OT_add_managed_model.already_managed) ctx
          else FINISHED
                 (with_managed_models ctx
                    (amarillo_managed_models ctx
                     ++ [ManagedModelEntry.mk String.EmptyString (Some ob)]))
        else CANCELLED (Some AMARILLO_OT_add_managed_model.no_mesh) ctx
    | None => CANCELLED (Some AMARILLO_OT_add_managed_model.no_mesh) ctx
    end.
Proof.
  unfold AMARILLO_OT_add_managed_model.execute.
  destruct active as [[ob ty]|]; [|reflexivity].
  destruct (String.eqb ty "MESH"); [|reflexivity].
  pose proof (existsb_managed (amarillo_managed_models ctx) ob) as H.
  fold (managed_objects ctx) in H.
  destruct (existsb _ _).
  - rewrite decide_True by (by apply H). reflexivity.
  - rewrite decide_False; [reflexivity|]. intros Hin. apply H in Hin. discriminate.
Qed.

Lemma managed_objects_added ctx ob :
  managed_objects
    (with_managed_models ctx
       (amarillo_managed_models ctx
        ++ [ManagedModelEntry.mk String.EmptyString (Some ob)]))
  = managed_objects ctx ++ [ob].
Proof.
  unfold managed_objects. cbn [amarillo_managed_models with_managed_models].
  rewrite omap_app. reflexivity.
Qed.

Lemma omap_sublist {A B} (f : A -> option B) (l1 l2 : list A) :
  l1 `sublist_of` l2 -> omap f l1 `sublist_of` omap f l2.
Proof.
  induction 1 as [|x l1 l2 _ IH|x l1 l2 _ IH].
  - constructor.
  - change (omap f ([x] ++ l1) `sublist_of` omap f ([x] ++ l2)).
    rewrite !omap_app. by apply sublist_app.
  - change (omap f l1 `sublist_of` omap f ([x] ++ l2)).
    rewrite omap_app. by apply sublist_inserts_l.
Qed.

Lemma remove_sublist {A} (l : list A) i : remove l i `sublist_of` l.
Proof.
  unfold remove. destruct (_ && _); [apply sublist_delete | reflexivity].
Qed.

Lemma remove_managed_model_in_range ctx model :
  in_bounds (amarillo_managed_models ctx) (amarillo_active_model_index ctx) ->
  amarillo_managed_models ctx !! Z.to_nat (amarillo_active_model_index ctx)
  = Some model ->
  AMARILLO_OT_remove_managed_model.execute ctx
  = FINISHED
      (with_active_model_index
         (with_managed_models
            (with_outfits ctx
               (AMARILLO_OT_remove_managed_model.cascade
                  (ManagedModelEntry.object model) <$> amarillo_outfits ctx))
            (remove (amarillo_managed_models ctx) (amarillo_active_model_index ctx)))
         (Z.max 0 (amarillo_active_model_index ctx - 1))).
Proof.
  intros [H0 H1] Hm. unfold AMARILLO_OT_remove_managed_model.execute.
  destruct (Z.leb_spec 0 (amarillo_active_model_index ctx)); [|lia].
  destruct (Z.ltb_spec (amarillo_active_model_index ctx)
                       (len (amarillo_managed_models ctx))); [|lia].
  cbn [andb]. rewrite Hm. reflexivity.
Qed.

Lemma remove_managed_model_out_of_range ctx :
  ~ in_bounds (amarillo_managed_models ctx) (amarillo_active_model_index ctx) ->
  AMARILLO_OT_remove_managed_model.execute ctx = CANCELLED None ctx.
Proof.
  intros Hout. unfold AMARILLO_OT_remove_managed_model.execute, in_bounds in *.
  destruct (Z.leb_spec 0 (amarillo_active_model_index ctx)); [|reflexivity].
  destruct (Z.ltb_spec (amarillo_active_model_index ctx)
                       (len (amarillo_managed_models ctx))); [lia|reflexivity].
Qed.

Lemma remove_managed_model_final ctx :
  final_context (AMARILLO_OT_remove_managed_model.execute ctx) = ctx
  \/ exists model,
       amarillo_managed_models ctx !! Z.to_nat (amarillo_active_model_index ctx)
       = Some model
       /\ in_bounds (amarillo_managed_models ctx) (amarillo_active_model_index ctx)
       /\ final_context (AMARILLO_OT_remove_managed_model.execute ctx)
          = with_active_model_index
              (with_managed_models
                 (with_outfits ctx
                    (AMARILLO_OT_remove_managed_model.cascade
                       (ManagedModelEntry.object model) <$> amarillo_outfits ctx))
                 (remove (amarillo_managed_models ctx)
                         (amarillo_active_model_index ctx)))
              (Z.max 0 (amarillo_active_model_index ctx - 1)).
Proof.
  destruct (decide (0 <= amarillo_active_model_index ctx
                    < len (amarillo_managed_models ctx))) as [Hin|Hout].
  - destruct (in_bounds_lookup _ _ Hin) as [model Hm].
    right. exists model. split; [exact Hm|].
    split; [exact Hin|].
    rewrite (remove_managed_model_in_range ctx model Hin Hm). reflexivity.
  - left. rewrite remove_managed_model_out_of_range by exact Hout. reflexivity.
Qed.

Lemma add_managed_model_NoDup active ctx :
  NoDup (managed_objects ctx) ->
  NoDup (managed_objects
           (final_context (AMARILLO_OT_add_managed_model.execute active ctx))).
Proof.
  intros Hnd. rewrite add_managed_model_cases.
  destruct active as [[ob ty]|]; [|exact Hnd].
  destruct (String.eqb ty "MESH"); [|exact Hnd].
  destruct (decide (ob ∈ managed_objects ctx)) as [Hin|Hout]; [exact Hnd|].
  cbn [final_context]. rewrite managed_objects_added.
  apply NoDup_app. split; [exact Hnd|]. split.
  - intros x Hx Hx'. apply list_elem_of_singleton in Hx'. congruence.
  - apply NoDup_singleton.
Qed.

Lemma remove_managed_model_NoDup ctx :
  NoDup (managed_objects ctx) ->
  NoDup (managed_objects
           (final_context (AMARILLO_OT_remove_managed_model.execute ctx))).
Proof.
  intros Hnd.
  destruct (remove_managed_model_final ctx) as [->|(model & _ & _ & ->)];
    [exact Hnd|].
  unfold managed_objects in *.
  cbn [amarillo_managed_models with_active_model_index with_managed_models].
  eapply sublist_NoDup; [exact Hnd|]. apply omap_sublist, remove_sublist.
Qed.

(** X18.  An object is registered exactly when it is a mesh that the
    registry does not manage yet.  It is then appended to the registry
    and nothing else changes; registering it again is cancelled with the
    warning "Model already managed".  A request that does not finish
    changes nothing, and with no active object the operator cancels with
    "Please select a mesh object". *)
Theorem add_managed_model_registers ob ty ctx :
  let r := AMARILLO_OT_add_managed_model.execute (Some (ob, ty)) ctx in
  ((exists ctx', r = FINISHED ctx') <-> ty = "MESH" /\ ob ∉ managed_objects ctx)
  /\ (forall ctx', r = FINISHED ctx' ->
        managed_objects ctx' = managed_objects ctx ++ [ob]
        /\ with_managed_models ctx' (amarillo_managed_models ctx) = ctx
        /\ AMARILLO_OT_add_managed_model.execute (Some (ob, ty)) ctx'
           = CANCELLED (Some AMARILLO_OT_add_managed_model.already_managed) ctx')
  /\ ((forall ctx', r <> FINISHED ctx') -> final_context r = ctx)
  /\ AMARILLO_OT_add_managed_model.execute None ctx
     = CANCELLED (Some AMARILLO_OT_add_managed_model.no_mesh) ctx.
Proof.
  intros r. subst r. rewrite !add_managed_model_cases.
  destruct (String.eqb_spec ty "MESH") as [->|Hty].
  - destruct (decide (ob ∈ managed_objects ctx)) as [Hin|Hout].
    + split; [|split; [|split; [|reflexivity]]].
      * split; [intros [ctx' [=]] | intros [_ Hout]; contradiction].
      * intros ctx' [=].
      * reflexivity.
    + split; [|split; [|split; [|reflexivity]]].
      * split; [auto | eauto].
      * intros ctx' [= <-]. split; [apply managed_objects_added|]. split.
        -- destruct ctx. reflexivity.
        -- rewrite add_managed_model_cases. cbn [String.eqb Ascii.eqb Bool.eqb].
           rewrite decide_True; [reflexivity|].
           rewrite managed_objects_added, elem_of_app, list_elem_of_singleton.
           by right.
      * intros H. exfalso. eapply H. reflexivity.
  - split; [|split; [|split; [|reflexivity]]].
    + split; [intros [ctx' [=]] | intros [E _]; contradiction].
    + intros ctx' [=].
    + reflexivity.
Qed.

(** X19.  The registry never manages an object twice: if no object is
    managed twice before add-model or remove-model runs, none is after
    it, whatever the outcome. *)
Theorem managed_models_stay_unique active ctx :
  NoDup (managed_objects ctx) ->
  NoDup (managed_objects
           (final_context (AMARILLO_OT_add_managed_model.execute active ctx)))
  /\ NoDup (managed_objects
              (final_context (AMARILLO_OT_remove_managed_model.execute ctx))).
Proof.
  intros Hnd. split.
  - by apply add_managed_model_NoDup.
  - by apply remove_managed_model_NoDup.
Qed.

Lemma managed_models_stay_unique_example :
  NoDup (managed_objects example_scene)
  /\ NoDup (managed_objects
              (final_context
                 (AMARILLO_OT_add_managed_model.execute (Some (hat, "MESH"))
                    example_scene)))
  /\ NoDup (managed_objects
              (final_context
                 (AMARILLO_OT_remove_managed_model.execute example_scene))).
Proof.
  assert (H : NoDup (managed_objects example_scene))
    by (refine (bool_decide_unpack _ _); vm_compute; exact I).
  split; [exact H|].
  apply (managed_models_stay_unique (Some (hat, "MESH")) example_scene H).
Defined.

(** X20.  Registering an object that no override refers to, selecting it in
    the model list and unregistering it gives back the scene as it was,
    up to the selection of the model list: no outfit loses an override,
    and the registry is the one before the registration. *)
Theorem add_then_remove_managed_model ob ty ctx ctx1 :
  AMARILLO_OT_add_managed_model.execute (Some (ob, ty)) ctx = FINISHED ctx1 ->
  (forall o sk, o ∈ amarillo_outfits ctx -> sk ∈ OutfitEntry.shape_keys o ->
     ShapeKeyEntry.model sk <> Some ob) ->
  AMARILLO_OT_remove_managed_model.execute
    (with_active_model_index ctx1 (len (amarillo_managed_models ctx)))
  = FINISHED
      (with_active_model_index ctx
         (Z.max 0 (len (amarillo_managed_models ctx) - 1))).
Proof.
  intros Hadd Hfree. rewrite add_managed_model_cases in Hadd.
  destruct (String.eqb ty "MESH"); [|discriminate].
  destruct (decide (ob ∈ managed_objects ctx)); [discriminate|].
  injection Hadd as <-.
  pose proof (Zle_0_nat (length (amarillo_managed_models ctx))) as Hlen.
  rewrite (remove_managed_model_in_range _
             (ManagedModelEntry.mk String.EmptyString (Some ob))).
  - cbn [amarillo_managed_models amarillo_active_model_index amarillo_outfits
         with_active_model_index with_managed_models with_outfits
         ManagedModelEntry.object].
    rewrite remove_in_bounds
      by (unfold in_bounds, len; rewrite length_app; cbn [length]; lia).
    replace (Z.to_nat (len (amarillo_managed_models ctx)))
      with (length (amarillo_managed_models ctx)) by (unfold len; lia).
    rewrite delete_middle, app_nil_r.
    replace (AMARILLO_OT_remove_managed_model.cascade (Some ob)
               <$> amarillo_outfits ctx) with (amarillo_outfits ctx).
    + destruct ctx. reflexivity.
    + apply list_eq. intros j. rewrite list_lookup_fmap.
      destruct (amarillo_outfits ctx !! j) as [o|] eqn:Ho; [|reflexivity].
      cbn [fmap option_fmap option_map]. f_equal. symmetry.
      apply cascade_spec. intros sk Hsk. apply (Hfree o sk); [|exact Hsk].
      eapply list_elem_of_lookup_2; exact Ho.
  - cbn [amarillo_managed_models amarillo_active_model_index
         with_active_model_index with_managed_models].
    unfold in_bounds, len. rewrite length_app. cbn [length]. lia.
  - cbn [amarillo_managed_models amarillo_active_model_index
         with_active_model_index with_managed_models].
    unfold len. rewrite Nat2Z.id. apply list_lookup_middle. reflexivity.
Qed.

Lemma add_then_remove_managed_model_example :
  AMARILLO_OT_add_managed_model.execute (Some (hat, "MESH")) example_scene
  = FINISHED
      (final_context
         (AMARILLO_OT_add_managed_model.execute (Some (hat, "MESH")) example_scene))
  /\ (forall o sk, o ∈ amarillo_outfits example_scene ->
        sk ∈ OutfitEntry.shape_keys o -> ShapeKeyEntry.model sk <> Some hat)
  /\ AMARILLO_OT_remove_managed_model.execute
       (with_active_model_index
          (final_context
             (AMARILLO_OT_add_managed_model.execute (Some (hat, "MESH"))
                example_scene)) 1)
     = FINISHED example_scene.
Proof.
  assert (Hfree : forall o sk, o ∈ amarillo_outfits example_scene ->
            sk ∈ OutfitEntry.shape_keys o -> ShapeKeyEntry.model sk <> Some hat).
  { intros o sk Ho Hsk.
    apply elem_of_cons in Ho as [->|Ho].
    - apply list_elem_of_singleton in Hsk as ->. discriminate.
    - apply list_elem_of_singleton in Ho as ->.
      apply list_elem_of_singleton in Hsk as ->. discriminate. }
  split; [reflexivity|]. split; [exact Hfree|].
  apply (add_then_remove_managed_model hat "MESH" example_scene
           (final_context
              (AMARILLO_OT_add_managed_model.execute (Some (hat, "MESH"))
                 example_scene))
           eq_refl Hfree).
Defined.

(** ** The invariants of the data model over a session at the panel *)

Lemma outfit_selection_in_bounds ctx :
  outfit_selection_ok ctx -> amarillo_outfits ctx <> [] ->
  in_bounds (amarillo_outfits ctx) (amarillo_active_outfit_index ctx).
Proof.
  unfold outfit_selection_ok, in_bounds, len. intros H Hne.
  destruct (amarillo_outfits ctx); [congruence|]. cbn [length] in *. lia.
Qed.


Lemma shown_outfit_in_range ctx :
  outfit_selection_ok ctx ->
  AMARILLO_PT_outfit_manager.shown_outfit ctx
  = if decide (amarillo_outfits ctx = []) then Some None
    else Some (Some (Z.to_nat (amarillo_active_outfit_index ctx))).
Proof.
  intros Hsel. unfold AMARILLO_PT_outfit_manager.shown_outfit.
  destruct (decide (amarillo_outfits ctx = [])) as [E|Hne].
  - rewrite E. reflexivity.
  - pose proof (outfit_selection_in_bounds ctx Hsel Hne) as Hin.
    rewrite (getitem_in_bounds _ _ Hin). destruct Hin.
    destruct (Z.ltb_spec 0 (len (amarillo_outfits ctx))); [reflexivity|lia].
Qed.

Lemma elem_of_alter {A} (f : A -> A) (l : list A) i x :
  x ∈ alter f i l -> x ∈ l \/ exists y, l !! i = Some y /\ x = f y.
Proof.
  intros Hx. apply list_elem_of_lookup in Hx as [j Hj].
  rewrite list_lookup_alter in Hj. destruct (decide (i = j)) as [<-|Hne].
  - destruct (l !! i) as [y|]; [|discriminate]. injection Hj as <-. eauto.
  - left. eapply list_elem_of_lookup_2; exact Hj.
Qed.

Lemma add_outfit_scene_ok selected active ctx :
  scene_ok ctx ->
  scene_ok (final_context (AMARILLO_OT_add_outfit.execute selected active ctx)).
Proof.
  intros (H1 & H2 & H3 & H4).
  pose proof (add_outfit_closed selected active ctx) as E. cbv zeta in E.
  rewrite E. cbn [final_context]. clear E.
  split; [|split; [exact H2|split; [exact H3|]]].
  - unfold outfit_selection_ok, len in *. cbn [amarillo_outfits with_outfits
      amarillo_active_outfit_index]. rewrite length_app. cbn [length]. lia.
  - intros o sk Ho Hsk. cbn [amarillo_outfits with_outfits] in Ho.
    apply elem_of_app in Ho as [Ho|Ho]; [exact (H4 o sk Ho Hsk)|].
    apply list_elem_of_singleton in Ho as ->. by apply elem_of_nil in Hsk.
Qed.

Lemma remove_outfit_scene_ok ctx :
  scene_ok ctx ->
  scene_ok (final_context (AMARILLO_OT_remove_outfit.execute ctx)).
Proof.
  intros Hok. pose proof Hok as (H1 & H2 & H3 & H4).
  unfold AMARILLO_OT_remove_outfit.execute.
  destruct (getitem (amarillo_outfits ctx) (amarillo_active_outfit_index ctx))
    as [pos|] eqn:Hpos; [|exact Hok].
  cbn [final_context]. destruct (getitem_Some _ _ _ Hpos) as [x Hx].
  pose proof (lookup_lt_Some _ _ _ Hx) as Hlt.
  split; [|split; [exact H2|split; [exact H3|]]].
  - unfold outfit_selection_ok in *.
    cbn [amarillo_outfits amarillo_active_outfit_index with_outfits
         with_active_outfit_index update_outfit].
    rewrite remove_in_bounds
      by (unfold in_bounds, len in *; rewrite length_alter; lia).
    unfold len in *. rewrite length_delete, length_alter
      by (apply lookup_lt_is_Some; rewrite length_alter; lia).
    lia.
  - intros o sk Ho Hsk.
    cbn [amarillo_outfits amarillo_active_outfit_index with_outfits
         with_active_outfit_index update_outfit] in Ho.
    apply (fun H => elem_of_sublist _ _ _ H (remove_sublist _ _)) in Ho.
    apply elem_of_alter in Ho as [Ho|(y & _ & ->)]; [exact (H4 o sk Ho Hsk)|].
    by apply elem_of_nil in Hsk.
Qed.

Lemma move_outfit_scene_ok direction ctx :
  scene_ok ctx ->
  scene_ok (final_context (AMARILLO_OT_move_outfit.execute direction ctx)).
Proof.
  intros Hok. pose proof Hok as (H1 & H2 & H3 & H4).
  assert (Hmoved : forall pos i,
    0 <= i <= Z.max 0 (len (amarillo_outfits ctx) - 1) ->
    scene_ok (with_active_outfit_index
                (with_outfits ctx
                   (move (amarillo_outfits ctx) (amarillo_active_outfit_index ctx) pos))
                i)).
  { intros pos i Hi. split; [|split; [exact H2|split; [exact H3|]]].
    - unfold outfit_selection_ok, len in *.
      cbn [amarillo_outfits amarillo_active_outfit_index with_outfits
           with_active_outfit_index].
      rewrite (Permutation_length (move_Permutation _ _ _)). exact Hi.
    - intros o sk Ho Hsk.
      cbn [amarillo_outfits with_outfits with_active_outfit_index] in Ho.
      rewrite move_Permutation in Ho. exact (H4 o sk Ho Hsk). }
  unfold AMARILLO_OT_move_outfit.execute, outfit_selection_ok in *.
  destruct direction.
  - destruct (Z.ltb_spec 0 (amarillo_active_outfit_index ctx)); [|exact Hok].
    apply Hmoved. lia.
  - destruct (Z.ltb_spec (amarillo_active_outfit_index ctx)
                         (len (amarillo_outfits ctx) - 1)); [|exact Hok].
    apply Hmoved. lia.
Qed.

Lemma add_shape_key_final ctx :
  final_context (AMARILLO_OT_add_shape_key.execute ctx) = ctx
  \/ exists pos sk ob,
       final_context (AMARILLO_OT_add_shape_key.execute ctx)
       = update_outfit ctx pos (fun o =>
           OutfitEntry.set_shape_keys o (OutfitEntry.shape_keys o ++ [sk]))
       /\ ShapeKeyEntry.model sk = Some ob
       /\ ob ∈ managed_objects ctx.
Proof.
  unfold AMARILLO_OT_add_shape_key.execute.
  destruct (getitem (amarillo_outfits ctx) (amarillo_active_outfit_index ctx))
    as [pos|]; [|by left].
  destruct (0 <=? amarillo_active_model_index ctx); [|by left].
  destruct (getitem (amarillo_managed_models ctx) (amarillo_active_model_index ctx))
    as [m|]; [|by left].
  destruct (amarillo_managed_models ctx !! m) as [model|] eqn:Hm; [|by left].
  cbn [mbind option_bind].
  destruct (ManagedModelEntry.object model) as [oid|] eqn:Hoid; [|by left].
  destruct (objects ctx !! oid) as [ob|]; [|by left].
  destruct (Object.shape_keys ob); [|by left].
  destruct (active_shape_key ob) as [key|]; [|by left].
  destruct (negb _); [|by left].
  right. eexists pos, _, oid. split; [reflexivity|]. split; [reflexivity|].
  apply list_elem_of_omap. exists model. split; [|exact Hoid].
  eapply list_elem_of_lookup_2; exact Hm.
Qed.

Lemma add_shape_key_scene_ok ctx :
  scene_ok ctx ->
  scene_ok (final_context (AMARILLO_OT_add_shape_key.execute ctx)).
Proof.
  intros Hok. pose proof Hok as (H1 & H2 & H3 & H4).
  destruct (add_shape_key_final ctx) as [->|(pos & sk & ob & -> & Hsk & Hob)];
    [exact Hok|].
  split; [|split; [exact H2|split; [exact H3|]]].
  - unfold outfit_selection_ok, len, update_outfit in *.
    cbn [amarillo_outfits amarillo_active_outfit_index with_outfits].
    rewrite length_alter. exact H1.
  - intros o sk' Ho Hsk'. unfold update_outfit in Ho.
    cbn [amarillo_outfits with_outfits] in Ho.
    apply elem_of_alter in Ho as [Ho|(y & Hy & ->)]; [exact (H4 o sk' Ho Hsk')|].
    cbn [OutfitEntry.set_shape_keys OutfitEntry.shape_keys] in Hsk'.
    apply elem_of_app in Hsk' as [Hsk'|Hsk'].
    + apply (H4 y sk'); [|exact Hsk']. eapply list_elem_of_lookup_2; exact Hy.
    + apply list_elem_of_singleton in Hsk' as ->. exists ob. by split.
Qed.

Lemma remove_shape_key_scene_ok ctx :
  scene_ok ctx ->
  scene_ok (final_context (AMARILLO_OT_remove_shape_key.execute ctx)).
Proof.
  intros Hok. pose proof Hok as (H1 & H2 & H3 & H4).
  unfold AMARILLO_OT_remove_shape_key.execute.
  destruct (getitem (amarillo_outfits ctx) (amarillo_active_outfit_index ctx))
    as [pos|]; [|exact Hok].
  cbn [final_context].
  split; [|split; [exact H2|split; [exact H3|]]].
  - unfold outfit_selection_ok, len, update_outfit in *.
    cbn [amarillo_outfits amarillo_active_outfit_index with_outfits].
    rewrite !length_alter. exact H1.
  - intros o sk Ho Hsk. unfold update_outfit in Ho.
    cbn [amarillo_outfits with_outfits] in Ho.
    apply elem_of_alter in Ho as [Ho|(y & Hy & ->)].
    + apply elem_of_alter in Ho as [Ho|(z & Hz & ->)]; [exact (H4 o sk Ho Hsk)|].
      cbn [OutfitEntry.set_shape_keys OutfitEntry.shape_keys] in Hsk.
      apply (H4 z sk); [eapply list_elem_of_lookup_2; exact Hz|].
      exact (elem_of_sublist _ _ _ Hsk (remove_sublist _ _)).
    + cbn [OutfitEntry.set_active_shape_key_index OutfitEntry.shape_keys] in Hsk.
      apply list_elem_of_lookup_2 in Hy.
      apply elem_of_alter in Hy as [Hy|(z & Hz & ->)]; [exact (H4 y sk Hy Hsk)|].
      cbn [OutfitEntry.set_shape_keys OutfitEntry.shape_keys] in Hsk.
      apply (H4 z sk); [eapply list_elem_of_lookup_2; exact Hz|].
      exact (elem_of_sublist _ _ _ Hsk (remove_sublist _ _)).
Qed.

Lemma add_managed_model_scene_ok active ctx :
  scene_ok ctx ->
  scene_ok (final_context (AMARILLO_OT_add_managed_model.execute active ctx)).
Proof.
  intros Hok. pose proof Hok as (H1 & H2 & H3 & H4).
  split; [|split; [|split; [by apply add_managed_model_NoDup|]]];
    rewrite add_managed_model_cases;
    (destruct active as [[ob ty]|]; [|try exact H1; try exact H2; exact H4]);
    (destruct (String.eqb ty "MESH"); [|try exact H1; try exact H2; exact H4]);
    (destruct (decide (ob ∈ managed_objects ctx));
       [try exact H1; try exact H2; exact H4|]);
    cbn [final_context].
  - exact H1.
  - unfold model_selection_ok, len in *.
    cbn [amarillo_managed_models amarillo_active_model_index with_managed_models].
    rewrite length_app. cbn [length]. lia.
  - intros o sk Ho Hsk. destruct (H4 o sk Ho Hsk) as (ob' & Hm & Hin).
    exists ob'. split; [exact Hm|].
    rewrite managed_objects_added. apply elem_of_app. by left.
Qed.

Lemma remove_managed_model_scene_ok ctx :
  scene_ok ctx ->
  scene_ok (final_context (AMARILLO_OT_remove_managed_model.execute ctx)).
Proof.
  intros Hok. pose proof Hok as (H1 & H2 & H3 & H4).
  split; [|split; [|split; [by apply remove_managed_model_NoDup|]]];
    (destruct (remove_managed_model_final ctx)
       as [->|(model & Hmodel & Hin & ->)];
     [try exact H1; try exact H2; exact H4|]).
  - unfold outfit_selection_ok, len in *.
    cbn [amarillo_outfits amarillo_active_outfit_index with_outfits
         with_managed_models with_active_model_index].
    rewrite length_fmap. exact H1.
  - unfold model_selection_ok in *.
    cbn [amarillo_managed_models amarillo_active_model_index with_outfits
         with_managed_models with_active_model_index].
    rewrite remove_in_bounds by exact Hin.
    unfold in_bounds, len in *.
    rewrite length_delete by (apply lookup_lt_is_Some; lia). lia.
  - intros o sk Ho Hsk.
    cbn [amarillo_outfits with_outfits with_managed_models
         with_active_model_index] in Ho.
    apply list_elem_of_fmap in Ho as (o0 & -> & Ho0).
    destruct (cascade_spec (ManagedModelEntry.object model) o0) as (Hkept & _).
    rewrite Hkept in Hsk. unfold kept_overrides in Hsk.
    apply list_elem_of_filter in Hsk as [Hne Hsk].
    destruct (H4 o0 sk Ho0 Hsk) as (ob & Hm & Hob).
    exists ob. split; [exact Hm|].
    unfold managed_objects in *.
    cbn [amarillo_managed_models with_managed_models with_active_model_index].
    rewrite remove_in_bounds by exact Hin. rewrite delete_take_drop, omap_app.
    rewrite <- (take_drop_middle _ _ _ Hmodel), omap_app in Hob.
    apply elem_of_app in Hob as [Hob|Hob]; apply elem_of_app; [by left|].
    change (model :: ?l) with ([model] ++ l) in Hob. rewrite omap_app in Hob.
    apply elem_of_app in Hob as [Hob|Hob]; [|by right].
    exfalso. apply list_elem_of_omap in Hob as (m & Hm1 & Hm2).
    apply list_elem_of_singleton in Hm1 as ->. congruence.
Qed.

Lemma quick_button_scene_ok ctx j item :
  amarillo_outfits ctx !! j = Some item ->
  scene_ok ctx ->
  scene_ok (final_context
              (AMARILLO_OT_quick_activate_outfit.execute
                 (AMARILLO_UL_outfits.outfit_index ctx item) ctx)).
Proof.
  intros Hj Hok. pose proof Hok as (H1 & H2 & H3 & H4).
  unfold AMARILLO_UL_outfits.outfit_index.
  destruct (find_of_item _ _ _ Hj) as (k & o & Hf & Hle & Hk & _).
  pose proof (lookup_lt_Some _ _ _ Hj) as Hlt.
  assert (Ht : in_bounds (amarillo_outfits ctx)
                 (find (amarillo_outfits ctx) (OutfitEntry.name item)))
    by (rewrite Hf; unfold in_bounds, len; lia).
  assert (Ha : in_bounds (amarillo_outfits ctx) (amarillo_active_outfit_index ctx)).
  { apply outfit_selection_in_bounds; [exact H1|]. intros E. rewrite E in Hj.
    discriminate. }
  rewrite (quick_activate_in_bounds _ _ Ht Ha). cbn [final_context].
  set (cur := Some (Z.to_nat (amarillo_active_outfit_index ctx))).
  set (tgt := Z.to_nat (find (amarillo_outfits ctx) (OutfitEntry.name item))).
  destruct (transition_frame cur tgt ctx) as (_ & _ & Hmodels & Hmidx & _).
  split; [|split; [|split]].
  - unfold outfit_selection_ok, in_bounds, len in *.
    cbn [amarillo_outfits amarillo_active_outfit_index with_active_outfit_index].
    rewrite transition_outfits, outfits_after_length. lia.
  - unfold model_selection_ok in *.
    cbn [amarillo_managed_models amarillo_active_model_index
         with_active_outfit_index].
    rewrite Hmodels, Hmidx. exact H2.
  - unfold managed_objects in *.
    cbn [amarillo_managed_models with_active_outfit_index].
    rewrite Hmodels. exact H3.
  - intros o' sk Ho' Hsk.
    cbn [amarillo_outfits with_active_outfit_index] in Ho'.
    rewrite transition_outfits in Ho'.
    apply list_elem_of_lookup in Ho' as [i Hi].
    destruct (outfits_after_lookup_frame _ _ _ _ Hi) as (o0 & Ho0 & Hframe).
    assert (Hsks : OutfitEntry.shape_keys o' = OutfitEntry.shape_keys o0)
      by (apply (f_equal (fun t => snd (fst t))) in Hframe; exact Hframe).
    rewrite Hsks in Hsk.
    destruct (H4 o0 sk (list_elem_of_lookup_2 _ _ _ Ho0) Hsk) as (ob & Hm & Hob).
    exists ob. split; [exact Hm|].
    unfold managed_objects in *.
    cbn [amarillo_managed_models with_active_outfit_index].
    rewrite Hmodels. exact Hob.
Qed.

Lemma press_scene_ok b ctx r :
  scene_ok ctx ->
  AMARILLO_PT_outfit_manager.press b ctx = Some r ->
  scene_ok (final_context r).
Proof.
  intros Hok. destruct b; cbn [AMARILLO_PT_outfit_manager.press].
  - intros [= <-]. by apply add_outfit_scene_ok.
  - intros [= <-]. by apply remove_outfit_scene_ok.
  - intros [= <-]. by apply move_outfit_scene_ok.
  - destruct (AMARILLO_PT_outfit_manager.shown_outfit ctx) as [[?|]|];
      try discriminate. intros [= <-]. by apply add_shape_key_scene_ok.
  - destruct (AMARILLO_PT_outfit_manager.shown_outfit ctx) as [[?|]|];
      try discriminate. intros [= <-]. by apply remove_shape_key_scene_ok.
  - destruct (AMARILLO_PT_outfit_manager.shown_outfit ctx); try discriminate.
    intros [= <-]. by apply add_managed_model_scene_ok.
  - destruct (AMARILLO_PT_outfit_manager.shown_outfit ctx); try discriminate.
    intros [= <-]. by apply remove_managed_model_scene_ok.
  - destruct (amarillo_outfits ctx !! item) as [it|] eqn:Hit; try discriminate.
    intros [= <-]. by apply quick_button_scene_ok with (j := item).
Qed.

(** X21.  The invariants of the data model hold throughout a session at the
    panel.  If both selections are in range, no object is managed twice
    and every override refers to a managed object, then the same holds
    after any sequence of button presses, whatever the outcome of each
    operator; and the panel's lookup of the selected outfit does not
    raise on the scene the session leaves. *)
Theorem session_keeps_scene_ok buttons ctx :
  scene_ok ctx ->
  scene_ok (session buttons ctx)
  /\ AMARILLO_PT_outfit_manager.shown_outfit (session buttons ctx) <> None.
Proof.
  intros Hok.
  assert (Hs : scene_ok (session buttons ctx)).
  { revert ctx Hok. induction buttons as [|b rest IH]; intros ctx Hok;
      [exact Hok|].
    cbn [session]. apply IH.
    destruct (AMARILLO_PT_outfit_manager.press b ctx) as [r|] eqn:E;
      [|exact Hok].
    exact (press_scene_ok b ctx r Hok E). }
  split; [exact Hs|].
  rewrite (shown_outfit_in_range _ (proj1 Hs)).
  destruct (decide _); discriminate.
Qed.

Lemma empty_scene_ok : scene_ok empty_scene.
Proof.
  split; [|split; [|split]].
  - unfold outfit_selection_ok, len. simpl. lia.
  - unfold model_selection_ok, len. simpl. lia.
  - refine (bool_decide_unpack _ _). vm_compute. exact I.
  - intros o sk Ho. by apply elem_of_nil in Ho.
Defined.

Lemma session_keeps_scene_ok_example :
  scene_ok empty_scene
  /\ scene_ok
       (session [AMARILLO_PT_outfit_manager.add_outfit [] (Some casual);
                 AMARILLO_PT_outfit_manager.add_shape_key;
                 AMARILLO_PT_outfit_manager.add_outfit [] None;
                 AMARILLO_PT_outfit_manager.quick_activate_outfit 1;
                 AMARILLO_PT_outfit_manager.remove_managed_model;
                 AMARILLO_PT_outfit_manager.remove_outfit]
          empty_scene).
Proof.
  split; [exact empty_scene_ok|].
  apply (session_keeps_scene_ok _ empty_scene empty_scene_ok).
Defined.


